(** * Property monitor: a shallow embedding of [property_monitor.py]

    The script fetches six brokerage pages, extracts the listings of one
    street, compares them with the snapshot stored by the previous run,
    overwrites the snapshot and mails the listings that are new.

    The embedding follows the Python text.  Effects (the log, the snapshot
    file, the mail that leaves, exceptions) are threaded through a state and
    exception monad; the outside world (web servers, clock, disk, mail
    server) is a record of oracles inside the state.  The libraries the
    script calls but does not contain (BeautifulSoup, [json], the case and
    whitespace functions of [str]) are interfaces, so that the theorems
    about the script hold for any implementation of them; executable
    instances are given to run the model on concrete pages, and the text
    codec given for [json] is proved to read back what it writes. *)

From Stdlib Require Import Ascii String ZArith List Lia.
From stdpp Require Import base option list strings gmap pretty.

Set Default Proof Using "Type".
Local Open Scope Z_scope.

(** ** Python values that the script manipulates *)

(** An instance of a subclass of [Exception]: the class name and [str(e)].
    [except Exception] catches exactly these. *)
Record exn := Exn { exn_type : string; exn_str : string }.

(** The outcome of evaluating an expression: a value or a raised exception. *)
Inductive Result (A : Type) : Type :=
| Ok (a : A)
| Raise (e : exn).
Arguments Ok {A} a.
Arguments Raise {A} e.

Definition result_bind {A B} (r : Result A) (k : A -> Result B) : Result B :=
  match r with
  | Ok a => k a
  | Raise e => Raise e
  end.

#[local] Set Warnings "-register-all".

(** What [json.load] can return. Objects keep their keys in insertion order,
    as Python dictionaries do.  Numbers carry an integer; the script never
    looks inside a number. *)
Inductive json : Type :=
| JNull
| JBool (b : bool)
| JNum (n : Z)
| JStr (s : string)
| JArr (items : list json)
| JObj (members : list (string * json)).

(** *** Dictionaries with string keys, in insertion order *)

Definition dict (V : Type) : Type := list (string * V).

Fixpoint dict_get {V} (k : string) (d : dict V) : option V :=
  match d with
  | [] => None
  | (k', v) :: d' => if String.eqb k k' then Some v else dict_get k d'
  end.

(** [d[k] = v]: replaces the value of an existing key in place, appends a
    new key at the end. *)
Fixpoint dict_set {V} (k : string) (v : V) (d : dict V) : dict V :=
  match d with
  | [] => [(k, v)]
  | (k', v') :: d' =>
      if String.eqb k k' then (k', v) :: d' else (k', v') :: dict_set k v d'
  end.

Definition dict_keys {V} (d : dict V) : list string := map fst d.

(** *** Strings *)

(** [needle in hay] for two strings. *)
Fixpoint contains (needle hay : string) : bool :=
  if String.prefix needle hay then true
  else match hay with
       | EmptyString => false
       | String _ rest => contains needle rest
       end.

(** [s.replace(old, new)] for one-character [old] and [new]. *)
Fixpoint replace_char (old new : ascii) (s : string) : string :=
  match s with
  | EmptyString => EmptyString
  | String c rest =>
      String (if Ascii.eqb c old then new else c) (replace_char old new rest)
  end.

(** The one-character strings of [s], what iterating over a string yields. *)
Fixpoint chars (s : string) : list string :=
  match s with
  | EmptyString => []
  | String c rest => String c EmptyString :: chars rest
  end.

(** The double quote character, as a string. *)
Definition dq : string := String (ascii_of_nat 34) EmptyString.
(** A line feed, as a string. *)
Definition nl : string := String (ascii_of_nat 10) EmptyString.

(** *** Dynamic operations on loaded JSON *)

(** [value.get(key, default)]: only dictionaries have the method. *)
Definition py_get (value : json) (key : string) (default : json) : Result json :=
  match value with
  | JObj members =>
      match dict_get key members with
      | Some v => Ok v
      | None => Ok default
      end
  | _ => Raise (Exn "AttributeError" "object has no attribute 'get'")
  end.

(** [iter(value)], forced: the elements of a list, the keys of a
    dictionary, the characters of a string. *)
Definition py_iter (value : json) : Result (list json) :=
  match value with
  | JArr items => Ok items
  | JObj members => Ok (map JStr (dict_keys members))
  | JStr s => Ok (map JStr (chars s))
  | _ => Raise (Exn "TypeError" "object is not iterable")
  end.

(** [value[key]] with a string key. *)
Definition py_getitem (value : json) (key : string) : Result json :=
  match value with
  | JObj members =>
      match dict_get key members with
      | Some v => Ok v
      | None => Raise (Exn "KeyError" ("'" +:+ key +:+ "'"))
      end
  | JArr _ => Raise (Exn "TypeError" "list indices must be integers or slices, not str")
  | JStr _ => Raise (Exn "TypeError" "string indices must be integers")
  | _ => Raise (Exn "TypeError" "object is not subscriptable")
  end.

(** [s == value] where [s] is a string: false for every non-string. *)
Definition py_eq_str (s : string) (value : json) : bool :=
  match value with
  | JStr s' => String.eqb s s'
  | _ => false
  end.

(** ** The outside world and the effects of the script *)

(** [response.status_code] and [response.text] of [requests.get]. *)
Record Response := { status_code : Z; text : string }.

Inductive Level := INFO | ERROR.

(** A log record: level and formatted message. *)
Definition LogRecord : Type := Level * string.

(** The message handed to [server.send_message]: the three headers and the
    one attached part with its MIME subtype. *)
Record Email := {
  subject : string;
  from_addr : string;
  to_addr : string;
  subtype : string;
  payload : string
}.

(** The calls of the SMTP session, in the order the script makes them. *)
Inductive SmtpStage := SmtpConnect | SmtpStartTls | SmtpLogin | SmtpSendMessage | SmtpQuit.

(** The position of a call in the session. *)
Definition stage_index (stage : SmtpStage) : nat :=
  match stage with
  | SmtpConnect => 0
  | SmtpStartTls => 1
  | SmtpLogin => 2
  | SmtpSendMessage => 3
  | SmtpQuit => 4
  end%nat.

Definition stage_eqb (a b : SmtpStage) : bool :=
  Nat.eqb (stage_index a) (stage_index b).

(** The world a run lives in.  The first six fields are oracles: they say
    how the environment answers and never change.  The last four are the
    state the script reads and writes. *)
Record World := {
  (** [requests.get(url, ...)]: a response, or the exception it raises *)
  http_get : string -> Result Response;
  (** [datetime.now().strftime("%Y-%m-%d")] *)
  today : string;
  (** the exception [open(name, 'w')] raises, if it does *)
  open_fault : option exn;
  (** the exception raised while writing, and how many characters reached
      the file before it *)
  write_fault : option (nat * exn);
  (** the exception raised by opening or reading a file, if any *)
  read_fault : option exn;
  (** the first SMTP call that raises, and the exception *)
  smtp_fault : option (SmtpStage * exn);
  (** the files of the working directory, by name *)
  files : gmap string string;
  (** the records logged so far, oldest first *)
  log : list LogRecord;
  (** the SMTP calls made so far, oldest first *)
  smtp_trace : list SmtpStage;
  (** the messages accepted by the mail server, oldest first *)
  outbox : list Email
}.

Definition set_files (f : gmap string string -> gmap string string) (w : World) : World :=
  {| http_get := http_get w; today := today w; open_fault := open_fault w;
     write_fault := write_fault w; read_fault := read_fault w;
     smtp_fault := smtp_fault w;
     files := f (files w); log := log w;
     smtp_trace := smtp_trace w; outbox := outbox w |}.

Definition set_log (f : list LogRecord -> list LogRecord) (w : World) : World :=
  {| http_get := http_get w; today := today w; open_fault := open_fault w;
     write_fault := write_fault w; read_fault := read_fault w;
     smtp_fault := smtp_fault w;
     files := files w; log := f (log w);
     smtp_trace := smtp_trace w; outbox := outbox w |}.

(** The world after [records] have been logged. *)
Definition add_log (records : list LogRecord) (w : World) : World :=
  set_log (fun l => l ++ records) w.

Definition set_outbox (f : list Email -> list Email) (w : World) : World :=
  {| http_get := http_get w; today := today w; open_fault := open_fault w;
     write_fault := write_fault w; read_fault := read_fault w;
     smtp_fault := smtp_fault w;
     files := files w; log := log w;
     smtp_trace := smtp_trace w; outbox := f (outbox w) |}.

Definition set_smtp_trace (f : list SmtpStage -> list SmtpStage) (w : World) : World :=
  {| http_get := http_get w; today := today w; open_fault := open_fault w;
     write_fault := write_fault w; read_fault := read_fault w;
     smtp_fault := smtp_fault w;
     files := files w; log := log w;
     smtp_trace := f (smtp_trace w); outbox := outbox w |}.

Definition set_smtp_fault (o : option (SmtpStage * exn)) (w : World) : World :=
  {| http_get := http_get w; today := today w; open_fault := open_fault w;
     write_fault := write_fault w; read_fault := read_fault w;
     smtp_fault := o;
     files := files w; log := log w;
     smtp_trace := smtp_trace w; outbox := outbox w |}.

(** *** State and exception monad *)

(** A Python computation over a state [S]: it ends with a value or with a
    raised exception, and in both cases leaves a state behind. *)
Definition M (S A : Type) : Type := S -> Result A * S.

Definition ret {S A} (a : A) : M S A := fun s => (Ok a, s).

Definition bind {S A B} (m : M S A) (k : A -> M S B) : M S B :=
  fun s =>
    match m s with
    | (Ok a, s') => k a s'
    | (Raise e, s') => (Raise e, s')
    end.

Definition raise {S A} (e : exn) : M S A := fun s => (Raise e, s).

(** [try: m  except Exception as e: handler e] *)
Definition try_except {S A} (m : M S A) (handler : exn -> M S A) : M S A :=
  fun s =>
    match m s with
    | (Ok a, s') => (Ok a, s')
    | (Raise e, s') => handler e s'
    end.

Definition lift {S A} (r : Result A) : M S A := fun s => (r, s).

Definition gets {S A} (f : S -> A) : M S A := fun s => (Ok (f s), s).

Definition modify {S} (f : S -> S) : M S unit := fun s => (Ok tt, f s).

Declare Scope py_scope.
Delimit Scope py_scope with py.
Notation "x <- m ;; k" := (bind m (fun x => k))
  (at level 100, m at next level, right associativity) : py_scope.
Notation "m ;;; k" := (bind m (fun _ => k))
  (at level 100, right associativity) : py_scope.
Local Open Scope py_scope.

(** *** Primitive effects on the world *)

Definition logger_info (msg : string) : M World unit :=
  modify (add_log [(INFO, msg)]).

Definition logger_error (msg : string) : M World unit :=
  modify (add_log [(ERROR, msg)]).

(** [os.path.exists(filename)] *)
Definition path_exists (filename : string) : M World bool :=
  gets (fun w => bool_decide (is_Some (files w !! filename))).

(** [open(filename, 'r')] followed by reading the whole file. *)
Definition read_file (filename : string) : M World string :=
  fun w =>
    match read_fault w with
    | Some e => (Raise e, w)
    | None =>
        match files w !! filename with
        | Some content => (Ok content, w)
        | None => (Raise (Exn "FileNotFoundError" filename), w)
        end
    end.

(** [open(filename, 'w')]: creates or truncates the file. *)
Definition open_write (filename : string) : M World unit :=
  fun w =>
    match open_fault w with
    | Some e => (Raise e, w)
    | None => (Ok tt, set_files <[filename := EmptyString]> w)
    end.

(** Writing [content] to the file just opened and closing it; a fault
    leaves a prefix of the content in the file. *)
Definition write_file (filename content : string) : M World unit :=
  fun w =>
    match write_fault w with
    | Some (n, e) =>
        (Raise e, set_files <[filename := String.substring 0 n content]> w)
    | None => (Ok tt, set_files <[filename := content]> w)
    end.

(** One call of the SMTP session: the call is made, and raises if it is
    the one at fault. *)
Definition smtp_call (stage : SmtpStage) : M World unit :=
  fun w =>
    (match smtp_fault w with
     | Some (stage', e) =>
         if stage_eqb stage' stage then Raise e else Ok tt
     | None => Ok tt
     end,
     set_smtp_trace (fun t => t ++ [stage]) w).

(** [server.send_message(msg)]: the server accepts the message unless the
    call raises. *)
Definition send_message (msg : Email) : M World unit :=
  smtp_call SmtpSendMessage ;;;
  modify (set_outbox (fun o => o ++ [msg])).

(** ** The libraries the script calls *)

(** BeautifulSoup: the parsed document and every element are tags.
    A tag is always truthy, so [if elem] and [if not elem] test for [None]. *)
Class HtmlLib := {
  Tag : Type;
  (** [BeautifulSoup(html, 'html.parser')] *)
  BeautifulSoup : string -> Result Tag;
  (** [tag.select(selector)] *)
  select : Tag -> string -> list Tag;
  (** [tag.select_one(selector)] *)
  select_one : Tag -> string -> option Tag;
  (** [tag.text] *)
  tag_text : Tag -> string;
  (** the attribute behind [tag[key]], which raises [KeyError] without it *)
  tag_attr : Tag -> string -> option string
}.

(** The methods of [str] whose result depends on the character tables. *)
Class StrLib := {
  (** [s.lower()] *)
  lower : string -> string;
  (** [s.strip()] *)
  strip : string -> string
}.

(** The [json] module. *)
Class JsonLib := {
  (** the text [json.dump(value, f, indent=2)] writes *)
  json_dumps : json -> string;
  (** [json.load(f)] on a file with the given text *)
  json_loads : string -> Result json
}.

(** ** Listings *)

(** The dictionary literal the parsers build: five string fields. *)
Record Listing := {
  address : string;
  price : string;
  size : string;
  link : string;
  found_date : string
}.

(** An element of the list [run] returns: [{"site": ..., "details": ...}]. *)
Record NewListing := { site : string; details : Listing }.

(** The keys and values of a listing, in the order of the literal. *)
Definition listing_items (l : Listing) : dict string :=
  [("address", address l); ("price", price l); ("size", size l);
   ("link", link l); ("found_date", found_date l)].

(** A listing as [json] sees it. *)
Definition listing_to_json (l : Listing) : json :=
  JObj (map (fun kv => (fst kv, JStr (snd kv))) (listing_items l)).

(** A snapshot, site name to listings, as [json] sees it. *)
Definition snapshot_to_json (snapshot : dict (list Listing)) : json :=
  JObj (map (fun kv => (fst kv, JArr (map listing_to_json (snd kv)))) snapshot).

(** ** class PropertyMonitor *)

Record PropertyMonitor := {
  target_street : string;
  postal_code : string;
  email_to : option string;
  previous_listings : json
}.

(** An entry of [self.sites]; [parser] is the bound method. *)
Record Site := {
  name : string;
  url : string;
  parser : string -> M World (list Listing)
}.

(** What differs between the six parse methods: the name used in the log,
    the five selectors and the prefix of the links. *)
Record Markup := {
  label : string;
  card_selector : string;
  address_selector : string;
  price_selector : string;
  size_selector : string;
  link_selector : string;
  link_prefix : string
}.

(** The local variables of [run], which keep what was assigned to them
    when an exception is caught. *)
Record Frame := {
  world : World;
  all_current_listings : dict (list Listing);
  new_listings : list NewListing
}.

Definition set_world (w : World) (fr : Frame) : Frame :=
  {| world := w; all_current_listings := all_current_listings fr;
     new_listings := new_listings fr |}.

Definition set_all_current (f : dict (list Listing) -> dict (list Listing))
    (fr : Frame) : Frame :=
  {| world := world fr; all_current_listings := f (all_current_listings fr);
     new_listings := new_listings fr |}.

Definition set_new_listings (f : list NewListing -> list NewListing)
    (fr : Frame) : Frame :=
  {| world := world fr; all_current_listings := all_current_listings fr;
     new_listings := f (new_listings fr) |}.

(** [new_listings.append(item)] for each of [items]. *)
Definition add_new (items : list NewListing) (fr : Frame) : Frame :=
  set_new_listings (fun l => l ++ items) fr.

(** A computation on the world, run inside [run]'s frame. *)
Definition in_world {A} (m : M World A) : M Frame A :=
  fun fr => let (r, w) := m (world fr) in (r, set_world w fr).

(** A [for] loop without [break] over a list. *)
Fixpoint for_each {S A} (body : A -> M S unit) (l : list A) : M S unit :=
  match l with
  | [] => ret tt
  | x :: rest => body x ;;; for_each body rest
  end.

(** [requests.get(url, headers=..., timeout=30)] *)
Definition requests_get (u : string) : M World Response :=
  fun w => (http_get w u, w).

(** [not self.email_to]: [None] and the empty string are falsy. *)
Definition not_email_to (o : option string) : bool :=
  match o with
  | None => true
  | Some EmptyString => true
  | Some _ => false
  end.

Definition snapshot_file : string := "previous_listings.json".

Section Monitor.
Context `{HtmlLib} `{StrLib} `{JsonLib}.

(** [load_previous_listings]: the loaded value, or [{}] when the file is
    absent or cannot be read or decoded. *)
Definition load_previous_listings : M World json :=
  found <- path_exists snapshot_file ;;
  if (found : bool) then
    try_except
      (content <- read_file snapshot_file ;;
       lift (json_loads content))
      (fun e =>
         logger_error ("Error loading previous listings: " +:+ exn_str e) ;;;
         ret (JObj []))
  else ret (JObj []).

(** [save_listings]: no [try] around the write. *)
Definition save_listings (listings : dict (list Listing)) : M World unit :=
  open_write snapshot_file ;;;
  write_file snapshot_file (json_dumps (snapshot_to_json listings)).

(** *** The parse methods *)

(** [link_elem['href']] *)
Definition tag_getitem (tag : Tag) (key : string) : Result string :=
  match tag_attr tag key with
  | Some v => Ok v
  | None => Raise (Exn "KeyError" ("'" +:+ key +:+ "'"))
  end.

(** The body of the [try] for one card: [None] when the card is passed
    over, the listing to append otherwise. *)
Definition card_listing (mk : Markup) (self : PropertyMonitor) (date : string)
    (card : Tag) : Result (option Listing) :=
  match select_one card (address_selector mk) with
  | None => Ok None
  | Some address_elem =>
      let address := strip (tag_text address_elem) in
      if contains (lower (target_street self)) (lower address) then
        let price_elem := select_one card (price_selector mk) in
        let size_elem := select_one card (size_selector mk) in
        let link_elem := select_one card (link_selector mk) in
        let price :=
          match price_elem with
          | Some e => strip (tag_text e)
          | None => "Price not available"
          end in
        let size :=
          match size_elem with
          | Some e => strip (tag_text e)
          | None => "Size not available"
          end in
        result_bind
          match link_elem with
          | Some e =>
              result_bind (tag_getitem e "href")
                (fun href => Ok (link_prefix mk +:+ href))
          | None => Ok "#"
          end
          (fun link =>
             Ok (Some {| address := address; price := price; size := size;
                         link := link; found_date := date |}))
      else Ok None
  end.

(** The loop over the cards; [listings] is the list built so far. *)
Fixpoint parse_cards (mk : Markup) (self : PropertyMonitor) (cards : list Tag)
    (listings : list Listing) : M World (list Listing) :=
  match cards with
  | [] => ret listings
  | card :: rest =>
      listings' <-
        try_except
          (date <- gets today ;;
           found <- lift (card_listing mk self date card) ;;
           ret match found with
               | Some listing => listings ++ [listing]
               | None => listings
               end)
          (fun e =>
             logger_error ("Error parsing " +:+ label mk +:+ " property: "
                           +:+ exn_str e) ;;;
             ret listings) ;;
      parse_cards mk self rest listings'
  end.

(** The common text of the six parse methods. *)
Definition parse_page (mk : Markup) (self : PropertyMonitor)
    (html_content : string) : M World (list Listing) :=
  soup <- lift (BeautifulSoup html_content) ;;
  parse_cards mk self (select soup (card_selector mk)) [].

Definition boliga_markup : Markup :=
  {| label := "Boliga"; card_selector := ".propertyitem";
     address_selector := ".address"; price_selector := ".price";
     size_selector := ".size"; link_selector := "a.property-link";
     link_prefix := "https://www.boliga.dk" |}.

Definition home_markup : Markup :=
  {| label := "Home"; card_selector := ".property-list-item";
     address_selector := ".property-address";
     price_selector := ".property-price"; size_selector := ".property-size";
     link_selector := "a.property-url"; link_prefix := "https://home.dk" |}.

Definition nybolig_markup : Markup :=
  {| label := "Nybolig"; card_selector := ".propertyCard";
     address_selector := ".propertyCard__address";
     price_selector := ".propertyCard__price";
     size_selector := ".propertyCard__areaSize";
     link_selector := "a.propertyCard__link";
     link_prefix := "https://www.nybolig.dk" |}.

Definition edc_markup : Markup :=
  {| label := "EDC"; card_selector := ".propertyCard";
     address_selector := ".propertyCard__address";
     price_selector := ".propertyCard__price";
     size_selector := ".propertyCard__areaSize";
     link_selector := "a.propertyCard__link";
     link_prefix := "https://www.edc.dk" |}.

Definition danbolig_markup : Markup :=
  {| label := "Danbolig"; card_selector := ".property-list-item";
     address_selector := ".property-address";
     price_selector := ".property-price"; size_selector := ".property-size";
     link_selector := "a.property-link";
     link_prefix := "https://www.danbolig.dk" |}.

Definition boligsiden_markup : Markup :=
  {| label := "Boligsiden"; card_selector := ".propertyListItem";
     address_selector := ".propertyListItem__address";
     price_selector := ".propertyListItem__price";
     size_selector := ".propertyListItem__areaSize";
     link_selector := "a.propertyListItem__link";
     link_prefix := "https://www.boligsiden.dk" |}.

Definition parse_boliga := parse_page boliga_markup.
Definition parse_home := parse_page home_markup.
Definition parse_nybolig := parse_page nybolig_markup.
Definition parse_edc := parse_page edc_markup.
Definition parse_danbolig := parse_page danbolig_markup.
Definition parse_boligsiden := parse_page boligsiden_markup.

(** [self.sites], as [__init__] builds it. *)
Definition sites (self : PropertyMonitor) : list Site :=
  let street := target_street self in
  let postnr := postal_code self in
  [ {| name := "Boliga";
       url := "https://www.boliga.dk/resultat?q=" +:+ street +:+ "&postnr=" +:+ postnr;
       parser := parse_boliga self |};
    {| name := "Home";
       url := "https://home.dk/ejendomme?searchtext=" +:+ street +:+ "%20" +:+ postnr;
       parser := parse_home self |};
    {| name := "Nybolig";
       url := "https://www.nybolig.dk/til-salg/ejerlejlighed/" +:+ postnr +:+ "/" +:+ street;
       parser := parse_nybolig self |};
    {| name := "EDC";
       url := "https://www.edc.dk/alle-boliger/" +:+ postnr +:+ "/" +:+ street
              +:+ "/ejerlejlighed/";
       parser := parse_edc self |};
    {| name := "Danbolig";
       url := "https://www.danbolig.dk/bolig/s%C3%B8g/?propertytype=5&zipcode="
              +:+ postnr +:+ "&address=" +:+ street;
       parser := parse_danbolig self |};
    {| name := "Boligsiden";
       url := "https://www.boligsiden.dk/adresse/"
              +:+ replace_char " " "-" street +:+ "-" +:+ postnr;
       parser := parse_boligsiden self |} ].

(** [PropertyMonitor(target_street, postal_code, email_to)] *)
Definition init (street postnr : string) (recipient : option string)
    : M World PropertyMonitor :=
  previous <- load_previous_listings ;;
  ret {| target_street := lower street; postal_code := postnr;
         email_to := recipient; previous_listings := previous |}.

(** *** run *)

(** The inner loop of [run] over the previous listings of the site: the
    final value of [is_new].  The price of a previous listing is looked up
    only when the addresses are equal ([and] short-circuits). *)
Fixpoint scan_previous (listing : Listing) (previous : list json) : Result bool :=
  match previous with
  | [] => Ok true
  | prev_listing :: rest =>
      result_bind (py_getitem prev_listing "address") (fun prev_address =>
        if py_eq_str (address listing) prev_address then
          result_bind (py_getitem prev_listing "price") (fun prev_price =>
            if py_eq_str (price listing) prev_price
            then Ok false
            else scan_previous listing rest)
        else scan_previous listing rest)
  end.

(** [is_new] for one listing; [for prev_listing in previous] first asks
    [previous] for an iterator. *)
Definition is_new (listing : Listing) (previous : json) : Result bool :=
  result_bind (py_iter previous) (scan_previous listing).

(** The loop [for listing in listings] of [run]. *)
Fixpoint check_new (site_name : string) (previous : json)
    (listings : list Listing) : M Frame unit :=
  match listings with
  | [] => ret tt
  | listing :: rest =>
      fresh <- lift (is_new listing previous) ;;
      (if (fresh : bool) then
         modify (add_new [ {| site := site_name; details := listing |} ])
       else ret tt) ;;;
      check_new site_name previous rest
  end.

(** The body of the loop [for site in self.sites]. *)
Definition check_site (self : PropertyMonitor) (s : Site) : M Frame unit :=
  try_except
    (in_world (logger_info ("Checking " +:+ name s +:+ "...")) ;;;
     response <- in_world (requests_get (url s)) ;;
     if status_code response =? 200 then
       listings <- in_world (parser s (text response)) ;;
       modify (set_all_current (dict_set (name s) listings)) ;;;
       previous <- lift (py_get (previous_listings self) (name s) (JArr [])) ;;
       check_new (name s) previous listings
     else
       in_world (logger_error ("Failed to access " +:+ name s
                               +:+ ", status code: "
                               +:+ pretty (status_code response))))
    (fun e =>
       in_world (logger_error ("Error processing " +:+ name s +:+ ": "
                               +:+ exn_str e))).

(** The head of the message body. *)
Definition email_head (self : PropertyMonitor) : string :=
  nl +:+
  "            <html>" +:+ nl +:+
  "            <head>" +:+ nl +:+
  "                <style>" +:+ nl +:+
  "                    body { font-family: Arial, sans-serif; }" +:+ nl +:+
  "                    .property { margin-bottom: 20px; border-bottom: 1px solid #ddd; padding-bottom: 15px; }" +:+ nl +:+
  "                    .property h3 { margin-bottom: 5px; color: #444; }" +:+ nl +:+
  "                    .details { margin-left: 15px; }" +:+ nl +:+
  "                    .source { color: #888; font-style: italic; }" +:+ nl +:+
  "                    .view-link { background-color: #4CAF50; color: white; padding: 5px 10px; " +:+ nl +:+
  "                                text-decoration: none; border-radius: 4px; display: inline-block; margin-top: 10px; }" +:+ nl +:+
  "                </style>" +:+ nl +:+
  "            </head>" +:+ nl +:+
  "            <body>" +:+ nl +:+
  "                <h2>New apartments found on " +:+ target_street self +:+ ", " +:+ postal_code self +:+ "</h2>" +:+ nl +:+
  "                <p>Here are the new listings found in our latest scan:</p>" +:+ nl +:+
  "            ".

(** The block of one new listing. *)
Definition email_item (item : NewListing) : string :=
  let listing := details item in
  nl +:+
  "                <div class=" +:+ dq +:+ "property" +:+ dq +:+ ">" +:+ nl +:+
  "                    <h3>" +:+ address listing +:+ "</h3>" +:+ nl +:+
  "                    <div class=" +:+ dq +:+ "details" +:+ dq +:+ ">" +:+ nl +:+
  "                        <p><strong>Price:</strong> " +:+ price listing +:+ "</p>" +:+ nl +:+
  "                        <p><strong>Size:</strong> " +:+ size listing +:+ "</p>" +:+ nl +:+
  "                        <p class=" +:+ dq +:+ "source" +:+ dq +:+ ">Found on: " +:+ site item +:+ " (on " +:+ found_date listing +:+ ")</p>" +:+ nl +:+
  "                        <a href=" +:+ dq +:+ link listing +:+ dq +:+ " class=" +:+ dq +:+ "view-link" +:+ dq +:+ ">View Property</a>" +:+ nl +:+
  "                    </div>" +:+ nl +:+
  "                </div>" +:+ nl +:+
  "                ".

(** The tail of the message body. *)
Definition email_tail : string :=
  nl +:+
  "                <p>This is an automated notification from your Property Monitor.</p>" +:+ nl +:+
  "            </body>" +:+ nl +:+
  "            </html>" +:+ nl +:+
  "            ".

(** [email_body] after the loop [for item in new_listings]. *)
Definition email_body (self : PropertyMonitor) (new : list NewListing) : string :=
  fold_left (fun body item => body +:+ email_item item) new (email_head self)
  +:+ email_tail.

(** [msg] as [send_notification] composes it: the headers and the body
    attached as [MIMEText(email_body, 'html')]. *)
Definition compose_message (self : PropertyMonitor) (recipient : string)
    (new : list NewListing) : Email :=
  {| subject := "New Property Listings on " +:+ target_street self;
     from_addr := "your-email@example.com";
     to_addr := recipient;
     subtype := "html";
     payload := email_body self new |}.

(** [send_notification]; [recipient] is [self.email_to] once it is known
    to be truthy. *)
Definition send_notification (self : PropertyMonitor) (new : list NewListing)
    : M World unit :=
  if not_email_to (email_to self) then
    logger_info "No email address configured, skipping notification"
  else
    let recipient := default EmptyString (email_to self) in
    try_except
      (let msg := compose_message self recipient new in
       smtp_call SmtpConnect ;;;
       smtp_call SmtpStartTls ;;;
       smtp_call SmtpLogin ;;;
       send_message msg ;;;
       smtp_call SmtpQuit ;;;
       logger_info ("Notification email sent to " +:+ recipient))
      (fun e =>
         logger_error ("Failed to send email notification: " +:+ exn_str e)).

(** [run] with its local variables in the frame. *)
Definition run_frame (self : PropertyMonitor) : M Frame (list NewListing) :=
  in_world (logger_info ("Starting property monitor for street: "
                         +:+ target_street self +:+ " in "
                         +:+ postal_code self)) ;;;
  for_each (check_site self) (sites self) ;;;
  all_current <- gets all_current_listings ;;
  in_world (save_listings all_current) ;;;
  new <- gets new_listings ;;
  match new with
  | _ :: _ =>
      in_world (logger_info ("Found " +:+ pretty (length new)
                             +:+ " new listings!")) ;;;
      in_world (send_notification self new)
  | [] => in_world (logger_info "No new listings found")
  end ;;;
  ret new.

(** [run]: the frame starts with an empty dictionary and an empty list and
    is dropped at the end. *)
Definition run (self : PropertyMonitor) : M World (list NewListing) :=
  fun w =>
    let (r, fr) :=
      run_frame self
        {| world := w; all_current_listings := []; new_listings := [] |} in
    (r, world fr).

(** *** The script run as a program *)

Definition TARGET_STREET : string := "Havneholmen".
Definition POSTAL_CODE : string := "1561".
Definition EMAIL_ADDRESS : string := "your-email@example.com".

(** The texts printed for one new entry. *)
Definition report_item (item : NewListing) : list string :=
  [ nl +:+ "From " +:+ site item +:+ ":";
    "  Address: " +:+ address (details item);
    "  Price: " +:+ price (details item);
    "  Size: " +:+ size (details item);
    "  Link: " +:+ link (details item) ].

(** The texts passed to [print], in order. *)
Definition report (new_listings : list NewListing) : list string :=
  match new_listings with
  | _ :: _ =>
      ("Found " +:+ pretty (length new_listings) +:+ " new properties on "
       +:+ TARGET_STREET +:+ "!")
      :: flat_map report_item new_listings
  | [] => [ "No new properties found on " +:+ TARGET_STREET ]
  end.

(** The block under [if __name__ == "__main__"]; its value is what it
    prints. *)
Definition main : M World (list string) :=
  monitor <- init TARGET_STREET POSTAL_CODE (Some EMAIL_ADDRESS) ;;
  new_listings <- run monitor ;;
  ret (report new_listings).

End Monitor.

(** ** Executable instances of the libraries *)

(** *** [str]: case and whitespace on ASCII *)

Module AsciiStr.

Definition lower_char (c : ascii) : ascii :=
  let n := nat_of_ascii c in
  if ((65 <=? n) && (n <=? 90))%nat then ascii_of_nat (n + 32) else c.

Fixpoint ascii_lower (s : string) : string :=
  match s with
  | EmptyString => EmptyString
  | String c rest => String (lower_char c) (ascii_lower rest)
  end.

(** Space, tab, line feed, vertical tab, form feed, carriage return. *)
Definition is_space (c : ascii) : bool :=
  let n := nat_of_ascii c in
  ((n =? 32) || ((9 <=? n) && (n <=? 13)))%nat.

Fixpoint lstrip (s : string) : string :=
  match s with
  | EmptyString => EmptyString
  | String c rest => if is_space c then lstrip rest else s
  end.

Fixpoint rstrip (s : string) : string :=
  match s with
  | EmptyString => EmptyString
  | String c rest =>
      match rstrip rest with
      | EmptyString => if is_space c then EmptyString else String c EmptyString
      | rest' => String c rest'
      end
  end.

Definition ascii_strip (s : string) : string := rstrip (lstrip s).

Definition lib : StrLib := {| lower := ascii_lower; strip := ascii_strip |}.

End AsciiStr.

(** *** BeautifulSoup: documents given as trees *)

Module TreeHtml.

(** An element: tag name, classes, other attributes, its own text and its
    child elements. *)
Inductive Element : Type :=
| Elem (tag_name : string) (classes : list string)
       (attrs : list (string * string)) (own_text : string)
       (children : list Element).

Definition element_classes (e : Element) : list string :=
  match e with Elem _ cs _ _ _ => cs end.

Definition element_name (e : Element) : string :=
  match e with Elem n _ _ _ _ => n end.

Definition element_attrs (e : Element) : list (string * string) :=
  match e with Elem _ _ a _ _ => a end.

(** The text of an element and of what it contains. *)
Fixpoint element_text (e : Element) : string :=
  match e with
  | Elem _ _ _ t children =>
      t +:+ (fix go (l : list Element) : string :=
               match l with
               | [] => EmptyString
               | c :: l' => element_text c +:+ go l'
               end) children
  end.

(** The elements below [e], in document order. *)
Fixpoint descendants (e : Element) : list Element :=
  match e with
  | Elem _ _ _ _ children =>
      (fix go (l : list Element) : list Element :=
         match l with
         | [] => []
         | c :: l' => c :: descendants c ++ go l'
         end) children
  end.

(** A selector [tag.class] or [.class], cut at the first dot. *)
Fixpoint cut_at_dot (s : string) : string * string :=
  match s with
  | EmptyString => (EmptyString, EmptyString)
  | String c rest =>
      if Ascii.eqb c "." then (EmptyString, rest)
      else let (a, b) := cut_at_dot rest in (String c a, b)
  end.

Definition matches (selector : string) (e : Element) : bool :=
  let (tag, class) := cut_at_dot selector in
  (match tag with
   | EmptyString => true
   | _ => String.eqb tag (element_name e)
   end)
  && existsb (String.eqb class) (element_classes e).

Definition tree_select (e : Element) (selector : string) : list Element :=
  List.filter (matches selector) (descendants e).

Definition tree_select_one (e : Element) (selector : string) : option Element :=
  head (tree_select e selector).

(** The library for a web on which the pages [pages], given with their
    trees, are served; any other text parses to an empty document. *)
Definition lib (pages : list (string * Element)) : HtmlLib :=
  {| Tag := Element;
     BeautifulSoup := fun html =>
       match dict_get html pages with
       | Some doc => Ok doc
       | None => Ok (Elem "[document]" [] [] EmptyString [])
       end;
     select := tree_select;
     select_one := tree_select_one;
     tag_text := element_text;
     tag_attr := fun e key => dict_get key (element_attrs e) |}.

End TreeHtml.

(** *** [json]: text with two spaces of indentation, ASCII only *)

Module JsonText.

(** Strings are sequences of code points below 256.  Numbers are
    integers. *)

Definition hex_digit (n : nat) : ascii :=
  match n with
  | 0 => "0" | 1 => "1" | 2 => "2" | 3 => "3" | 4 => "4" | 5 => "5"
  | 6 => "6" | 7 => "7" | 8 => "8" | 9 => "9" | 10 => "a" | 11 => "b"
  | 12 => "c" | 13 => "d" | 14 => "e" | _ => "f"
  end%nat%char.

(** What [ensure_ascii] writes for one character. *)
Definition escape_char (c : ascii) : string :=
  let n := nat_of_ascii c in
  if (n =? 34)%nat then "\" +:+ dq
  else if (n =? 92)%nat then "\\"
  else if (n =? 10)%nat then "\n"
  else if (n =? 13)%nat then "\r"
  else if (n =? 9)%nat then "\t"
  else if (n =? 8)%nat then "\b"
  else if (n =? 12)%nat then "\f"
  else if ((n <? 32) || (126 <? n))%nat then
    "\u00" +:+ String (hex_digit (n / 16)) (String (hex_digit (n mod 16)) EmptyString)
  else String c EmptyString.

Fixpoint escape (s : string) : string :=
  match s with
  | EmptyString => EmptyString
  | String c rest => escape_char c +:+ escape rest
  end.

Definition quote (s : string) : string := dq +:+ escape s +:+ dq.

Fixpoint spaces (n : nat) : string :=
  match n with
  | O => EmptyString
  | S n' => String " " (spaces n')
  end.

(** A line feed and the indentation of [level]. *)
Definition newline_indent (level : nat) : string := nl +:+ spaces (2 * level).

Fixpoint join (sep : string) (l : list string) : string :=
  match l with
  | [] => EmptyString
  | [x] => x
  | x :: rest => x +:+ sep +:+ join sep rest
  end.

(** [json.dumps(v, indent=2)] for a value that starts at depth [level]. *)
Fixpoint dumps_at (level : nat) (v : json) : string :=
  match v with
  | JNull => "null"
  | JBool true => "true"
  | JBool false => "false"
  | JNum n => pretty n
  | JStr s => quote s
  | JArr [] => "[]"
  | JArr items =>
      "[" +:+ newline_indent (S level)
      +:+ join ("," +:+ newline_indent (S level))
               (map (dumps_at (S level)) items)
      +:+ newline_indent level +:+ "]"
  | JObj [] => "{}"
  | JObj members =>
      "{" +:+ newline_indent (S level)
      +:+ join ("," +:+ newline_indent (S level))
               (map (fun kv => quote (fst kv) +:+ ": " +:+ dumps_at (S level) (snd kv))
                    members)
      +:+ newline_indent level +:+ "}"
  end.

Definition dumps (v : json) : string := dumps_at 0 v.

(** **** Reading *)

Definition is_ws (c : ascii) : bool :=
  let n := nat_of_ascii c in
  ((n =? 32) || (n =? 9) || (n =? 10) || (n =? 13))%nat.

Fixpoint skip_ws (s : string) : string :=
  match s with
  | EmptyString => EmptyString
  | String c rest => if is_ws c then skip_ws rest else s
  end.

Definition hex_value (c : ascii) : option nat :=
  let n := nat_of_ascii c in
  if ((48 <=? n) && (n <=? 57))%nat then Some (n - 48)%nat
  else if ((97 <=? n) && (n <=? 102))%nat then Some (n - 87)%nat
  else if ((65 <=? n) && (n <=? 70))%nat then Some (n - 55)%nat
  else None.

(** The character written [\uXXXX] with the four given digits, when its
    code is below 256. *)
Definition unicode_escape (h1 h2 h3 h4 : ascii) : option ascii :=
  match hex_value h1, hex_value h2, hex_value h3, hex_value h4 with
  | Some 0%nat, Some 0%nat, Some a, Some b => Some (ascii_of_nat (16 * a + b))
  | _, _, _, _ => None
  end.

(** The character written by a backslash and [c]. *)
Definition simple_escape (c : ascii) : option ascii :=
  let n := nat_of_ascii c in
  if (n =? 34)%nat then Some c
  else if (n =? 92)%nat then Some c
  else if (n =? 47)%nat then Some c
  else if (n =? 98)%nat then Some (ascii_of_nat 8)
  else if (n =? 102)%nat then Some (ascii_of_nat 12)
  else if (n =? 110)%nat then Some (ascii_of_nat 10)
  else if (n =? 114)%nat then Some (ascii_of_nat 13)
  else if (n =? 116)%nat then Some (ascii_of_nat 9)
  else None.

(** The content of a string literal after its opening quote, and the
    text after its closing quote. *)
Fixpoint parse_chars (s : string) : option (string * string) :=
  match s with
  | EmptyString => None
  | String c rest =>
      let n := nat_of_ascii c in
      if (n =? 34)%nat then Some (EmptyString, rest)
      else if (n =? 92)%nat then
        match rest with
        | String e rest1 =>
            if (nat_of_ascii e =? 117)%nat then
              match rest1 with
              | String h1 (String h2 (String h3 (String h4 rest2))) =>
                  match unicode_escape h1 h2 h3 h4, parse_chars rest2 with
                  | Some ch, Some (str, rest3) => Some (String ch str, rest3)
                  | _, _ => None
                  end
              | _ => None
              end
            else
              match simple_escape e, parse_chars rest1 with
              | Some ch, Some (str, rest3) => Some (String ch str, rest3)
              | _, _ => None
              end
        | EmptyString => None
        end
      else if (n <? 32)%nat then None
      else
        match parse_chars rest with
        | Some (str, rest3) => Some (String c str, rest3)
        | None => None
        end
  end.

Definition is_digit (c : ascii) : bool :=
  let n := nat_of_ascii c in ((48 <=? n) && (n <=? 57))%nat.

(** The digits at the start of [s] read as a number after [acc]. *)
Fixpoint parse_digits (acc : N) (s : string) : N * string :=
  match s with
  | String c rest =>
      if is_digit c
      then parse_digits (10 * acc + N.of_nat (nat_of_ascii c - 48)) rest
      else (acc, s)
  | EmptyString => (acc, s)
  end.

(** [s] without the prefix [word], when it starts with it. *)
Fixpoint expect (word s : string) : option string :=
  match word, s with
  | EmptyString, _ => Some s
  | String a word', String b s' => if Ascii.eqb a b then expect word' s' else None
  | String _ _, EmptyString => None
  end.

(** The dictionary that results from assigning the pairs in order. *)
Definition dict_of_pairs (pairs : list (string * json)) : dict json :=
  fold_left (fun d kv => dict_set (fst kv) (snd kv) d) pairs [].

(** A value at the start of [s] and the text after it.  [fuel] bounds the
    number of nested calls. *)
Fixpoint parse_value (fuel : nat) (s : string) : option (json * string) :=
  match fuel with
  | O => None
  | S fuel' =>
      match skip_ws s with
      | EmptyString => None
      | String c rest =>
          let n := nat_of_ascii c in
          if (n =? 110)%nat then
            match expect "ull" rest with Some r => Some (JNull, r) | None => None end
          else if (n =? 116)%nat then
            match expect "rue" rest with Some r => Some (JBool true, r) | None => None end
          else if (n =? 102)%nat then
            match expect "alse" rest with Some r => Some (JBool false, r) | None => None end
          else if (n =? 34)%nat then
            match parse_chars rest with
            | Some (str, r) => Some (JStr str, r)
            | None => None
            end
          else if (n =? 91)%nat then
            match skip_ws rest with
            | String c' r =>
                if (nat_of_ascii c' =? 93)%nat then Some (JArr [], r)
                else match parse_items fuel' rest with
                     | Some (items, r') => Some (JArr items, r')
                     | None => None
                     end
            | EmptyString => None
            end
          else if (n =? 123)%nat then
            match skip_ws rest with
            | String c' r =>
                if (nat_of_ascii c' =? 125)%nat then Some (JObj [], r)
                else match parse_members fuel' rest with
                     | Some (pairs, r') => Some (JObj (dict_of_pairs pairs), r')
                     | None => None
                     end
            | EmptyString => None
            end
          else if (n =? 45)%nat then
            match rest with
            | String d _ =>
                if is_digit d
                then let (m, r) := parse_digits 0 rest in Some (JNum (- Z.of_N m), r)
                else None
            | EmptyString => None
            end
          else if is_digit c then
            let (m, r) := parse_digits 0 (String c rest) in Some (JNum (Z.of_N m), r)
          else None
      end
  end
with parse_items (fuel : nat) (s : string) : option (list json * string) :=
  match fuel with
  | O => None
  | S fuel' =>
      match parse_value fuel' s with
      | Some (v, r) =>
          match skip_ws r with
          | String c r' =>
              if (nat_of_ascii c =? 44)%nat then
                match parse_items fuel' r' with
                | Some (vs, r'') => Some (v :: vs, r'')
                | None => None
                end
              else if (nat_of_ascii c =? 93)%nat then Some ([v], r')
              else None
          | EmptyString => None
          end
      | None => None
      end
  end
with parse_members (fuel : nat) (s : string)
    : option (list (string * json) * string) :=
  match fuel with
  | O => None
  | S fuel' =>
      match skip_ws s with
      | String q r0 =>
          if (nat_of_ascii q =? 34)%nat then
            match parse_chars r0 with
            | Some (key, r1) =>
                match skip_ws r1 with
                | String colon r2 =>
                    if (nat_of_ascii colon =? 58)%nat then
                      match parse_value fuel' r2 with
                      | Some (v, r) =>
                          match skip_ws r with
                          | String c r' =>
                              if (nat_of_ascii c =? 44)%nat then
                                match parse_members fuel' r' with
                                | Some (kvs, r'') => Some ((key, v) :: kvs, r'')
                                | None => None
                                end
                              else if (nat_of_ascii c =? 125)%nat
                                   then Some ([(key, v)], r')
                                   else None
                          | EmptyString => None
                          end
                      | None => None
                      end
                    else None
                | EmptyString => None
                end
            | None => None
            end
          else None
      | EmptyString => None
      end
  end.

(** [json.loads(text)] *)
Definition loads (content : string) : Result json :=
  match parse_value (S (String.length content)) content with
  | Some (v, rest) =>
      match skip_ws rest with
      | EmptyString => Ok v
      | String _ _ => Raise (Exn "JSONDecodeError" "Extra data")
      end
  | None => Raise (Exn "JSONDecodeError" "Expecting value")
  end.

Definition lib : JsonLib := {| json_dumps := dumps; json_loads := loads |}.

(** **** What the script stores, and the calls it takes to read it *)

(** Strings, lists and dictionaries with distinct keys, as well as [null]
    and the booleans. *)
Inductive storable : json -> Prop :=
| storable_null : storable JNull
| storable_bool b : storable (JBool b)
| storable_str s : storable (JStr s)
| storable_arr items : Forall storable items -> storable (JArr items)
| storable_obj members :
    NoDup (dict_keys members) ->
    Forall (fun kv => storable (snd kv)) members ->
    storable (JObj members).

(** A bound on the nested calls [parse_value] makes to read a value. *)
Fixpoint fuel_for (v : json) : nat :=
  match v with
  | JArr items => S (fold_right (fun x acc => S (fuel_for x + acc)) O items)
  | JObj members =>
      S (fold_right (fun kv acc => S (fuel_for (snd kv) + acc)) O members)
  | _ => 1
  end.

(** The text between two items or members at depth [level]. *)
Definition separator (level : nat) : string := "," +:+ newline_indent (S level).

(** The text of a member at depth [level]. *)
Definition member_text (level : nat) (kv : string * json) : string :=
  quote (fst kv) +:+ ": " +:+ dumps_at (S level) (snd kv).

(** A text that starts with a character that is neither whitespace nor a
    closing bracket or brace. *)
Definition opens (s : string) : Prop :=
  exists c r, s = String c r /\ is_ws c = false /\
              (nat_of_ascii c =? 93)%nat = false /\
              (nat_of_ascii c =? 125)%nat = false.

(** The bound of [fuel_for] for the items of a list. *)
Definition items_fuel (items : list json) : nat :=
  fold_right (fun x acc => S (fuel_for x + acc)) O items.

(** The bound of [fuel_for] for the members of a dictionary. *)
Definition members_fuel (members : list (string * json)) : nat :=
  fold_right (fun kv acc => S (fuel_for (snd kv) + acc)) O members.

(** A value is read back from its text at any depth, before any text,
    by any number of calls above the bound. *)
Definition reads_back (v : json) : Prop :=
  forall level rest fuel,
    (fuel_for v <= fuel)%nat ->
    parse_value fuel (dumps_at level v +:+ rest) = Some (v, rest).

End JsonText.

(** ** Notions used to state the properties *)

(** What the body of the [if status_code == 200] receives for a site in
    the world [w]: the parsed listings, when the fetch returns status 200
    and the parse method returns. *)
Definition scraped (s : Site) (w : World) : option (list Listing) :=
  match http_get w (url s) with
  | Ok response =>
      if status_code response =? 200 then
        match fst (parser s (text response) w) with
        | Ok listings => Some listings
        | Raise _ => None
        end
      else None
  | Raise _ => None
  end.

(** A site fails in [w], with the message that is logged for it: the
    fetch raises, the status is not 200, or the parse method raises. *)
Inductive site_fails (s : Site) (w : World) : string -> Prop :=
| fetch_raises e :
    http_get w (url s) = Raise e ->
    site_fails s w ("Error processing " +:+ name s +:+ ": " +:+ exn_str e)
| bad_status response :
    http_get w (url s) = Ok response ->
    status_code response <> 200 ->
    site_fails s w ("Failed to access " +:+ name s +:+ ", status code: "
                    +:+ pretty (status_code response))
| parse_raises response e :
    http_get w (url s) = Ok response ->
    status_code response = 200 ->
    fst (parser s (text response) w) = Raise e ->
    site_fails s w ("Error processing " +:+ name s +:+ ": " +:+ exn_str e).

(** Two sites with the same name and address whose parse methods return
    the same in two worlds with the same web. *)
Definition same_site (w w' : World) (s s' : Site) : Prop :=
  name s = name s' /\ url s = url s' /\
  forall html_content,
    fst (parser s html_content w) = fst (parser s' html_content w').

(** The assignment [all_current_listings[site['name']] = listings], made
    for a site that is scraped. *)
Definition record_site (w : World) (d : dict (list Listing)) (s : Site)
    : dict (list Listing) :=
  match scraped s w with
  | Some listings => dict_set (name s) listings d
  | None => d
  end.

(** The mapping a run builds: one entry for every site that is scraped,
    assigned in the order of the sites. *)
Definition built_snapshot (ss : list Site) (w : World) : dict (list Listing) :=
  fold_left (record_site w) ss [].

(** The entries the loop over the listings of a site appends, and the
    exception that ends the loop early, if one is raised. *)
Fixpoint novelties (site_name : string) (previous : json)
    (listings : list Listing) : list NewListing * option exn :=
  match listings with
  | [] => ([], None)
  | listing :: rest =>
      match is_new listing previous with
      | Raise e => ([], Some e)
      | Ok fresh =>
          let (items, err) := novelties site_name previous rest in
          ((if fresh then [ {| site := site_name; details := listing |} ] else [])
           ++ items, err)
      end
  end.

(** The entries a site adds to [new_listings] in the world [w]. *)
Definition site_news (self : PropertyMonitor) (s : Site) (w : World)
    : list NewListing :=
  match scraped s w with
  | Some listings =>
      match py_get (previous_listings self) (name s) (JArr []) with
      | Ok previous => fst (novelties (name s) previous listings)
      | Raise _ => []
      end
  | None => []
  end.

(** The entries the loop over the sites adds to [new_listings]. *)
Definition all_news (self : PropertyMonitor) (ss : list Site) (w : World)
    : list NewListing :=
  flat_map (fun s => site_news self s w) ss.

(** Two listings share address and price. *)
Definition same_key (a b : Listing) : Prop :=
  address a = address b /\ price a = price b.

(** Some listing of [previous] shares address and price with [listing]. *)
Definition seen_before (previous : list Listing) (listing : Listing) : Prop :=
  exists p, In p previous /\ same_key listing p.

(** The test of the inner loop of [run], on listings. *)
Definition same_keyb (a b : Listing) : bool :=
  String.eqb (address a) (address b) && String.eqb (price a) (price b).

(** Some listing of [previous] shares address and price with [listing],
    as a test. *)
Definition seen_beforeb (previous : list Listing) (listing : Listing) : bool :=
  existsb (same_keyb listing) previous.

(** The address and price of a listing. *)
Definition listing_key (l : Listing) : string * string := (address l, price l).

(** The number of listings with the key [k]. *)
Definition count_key (k : string * string) (listings : list Listing) : nat :=
  length (List.filter (fun l => bool_decide (listing_key l = k)) listings).

(** The names of the five fields of a listing. *)
Definition listing_fields : list string :=
  ["address"; "price"; "size"; "link"; "found_date"].

(** A parse method that only reads the clock and only writes the log. *)
Definition clock_and_log_only (p : string -> M World (list Listing)) : Prop :=
  exists (f : string -> string -> Result (list Listing))
         (g : string -> string -> list LogRecord),
    forall html w, p html w = (f (today w) html, add_log (g (today w) html) w).

(** The snapshot can be opened for writing and written. *)
Definition disk_ok (w : World) : Prop :=
  open_fault w = None /\ write_fault w = None.

(** The calls of a session, in order. *)
Definition smtp_session : list SmtpStage :=
  [SmtpConnect; SmtpStartTls; SmtpLogin; SmtpSendMessage; SmtpQuit].

(** The calls made of [stages] when the call [fault] raises: those up to
    it, and itself. *)
Fixpoint calls_until (fault : option SmtpStage) (stages : list SmtpStage)
    : list SmtpStage :=
  match stages with
  | [] => []
  | stage :: rest =>
      match fault with
      | Some stage' =>
          if stage_eqb stage' stage then [stage]
          else stage :: calls_until fault rest
      | None => stage :: calls_until fault rest
      end
  end.

(** The entry of [run]'s result for a listing of a site. *)
Definition tag (site_name : string) (listing : Listing) : NewListing :=
  {| site := site_name; details := listing |}.

(** The listings scraped from a site, as entries. *)
Definition tagged (s : Site) (w : World) : list NewListing :=
  match scraped s w with
  | Some listings => map (tag (name s)) listings
  | None => []
  end.

(** The entries of a site that no listing of the snapshot [old] matches. *)
Definition unseen (old : dict (list Listing)) (s : Site) (w : World)
    : list NewListing :=
  match scraped s w with
  | Some listings =>
      map (tag (name s))
        (List.filter
           (fun l => negb (seen_beforeb (default [] (dict_get (name s) old)) l))
           listings)
  | None => []
  end.

(** The names of the sites that are scraped, in order. *)
Definition scraped_names (ss : list Site) (w : World) : list string :=
  map name (List.filter (fun s => bool_decide (is_Some (scraped s w))) ss).

(** [x] occurs in [s], with the text before and after it. *)
Definition infix_of (x s : string) : Prop :=
  exists before after, s = before +:+ x +:+ after.

(** The SMTP session reaches and completes [send_message]. *)
Definition delivers (w : World) : bool :=
  match smtp_fault w with
  | Some (SmtpQuit, _) => true
  | Some _ => false
  | None => true
  end.

Section PureParsing.
Context `{HtmlLib} `{StrLib}.

(** The listings the loop over the cards appends, in order. *)
Fixpoint cards_listings (mk : Markup) (self : PropertyMonitor) (date : string)
    (cards : list Tag) : list Listing :=
  match cards with
  | [] => []
  | card :: rest =>
      match card_listing mk self date card with
      | Ok (Some listing) => listing :: cards_listings mk self date rest
      | _ => cards_listings mk self date rest
      end
  end.

(** The records the loop over the cards logs, in order. *)
Fixpoint cards_errors (mk : Markup) (self : PropertyMonitor) (date : string)
    (cards : list Tag) : list LogRecord :=
  match cards with
  | [] => []
  | card :: rest =>
      match card_listing mk self date card with
      | Raise e =>
          (ERROR, "Error parsing " +:+ label mk +:+ " property: " +:+ exn_str e)
          :: cards_errors mk self date rest
      | Ok _ => cards_errors mk self date rest
      end
  end.

(** The address and price of the listing a card gives, if it gives one. *)
Definition card_key (mk : Markup) (self : PropertyMonitor) (date : string)
    (card : Tag) : option (string * string) :=
  match card_listing mk self date card with
  | Ok (Some listing) => Some (listing_key listing)
  | _ => None
  end.

(** The number of cards that give a listing with the key [k]. *)
Definition count_cards (mk : Markup) (self : PropertyMonitor) (date : string)
    (k : string * string) (cards : list Tag) : nat :=
  length (List.filter (fun card => bool_decide (card_key mk self date card = Some k))
            cards).

(** The address element of a card holds the street of the monitor. *)
Definition card_matches (mk : Markup) (self : PropertyMonitor) (card : Tag) : bool :=
  match select_one card (address_selector mk) with
  | Some address_elem =>
      contains (lower (target_street self))
        (lower (strip (tag_text address_elem)))
  | None => false
  end.

(** The link element of a card has no [href]. *)
Definition card_link_broken (mk : Markup) (card : Tag) : bool :=
  match select_one card (link_selector mk) with
  | Some link_elem =>
      match tag_attr link_elem "href" with
      | Some _ => false
      | None => true
      end
  | None => false
  end.

(** The six parse methods with their markup. *)
Definition parse_methods
    : list ((PropertyMonitor -> string -> M World (list Listing)) * Markup) :=
  [ (parse_boliga, boliga_markup); (parse_home, home_markup);
    (parse_nybolig, nybolig_markup); (parse_edc, edc_markup);
    (parse_danbolig, danbolig_markup); (parse_boligsiden, boligsiden_markup) ].

End PureParsing.

Section Notification.
Context `{HtmlLib} `{StrLib}.

(** The SMTP calls a call of [send_notification] makes. *)
Definition session_calls (self : PropertyMonitor) (w : World) : list SmtpStage :=
  if not_email_to (email_to self) then []
  else calls_until (option_map fst (smtp_fault w)) smtp_session.

(** The world after a mail session that made [calls] and delivered
    [messages]. *)
Definition after_mail (calls : list SmtpStage) (messages : list Email)
    (w : World) : World :=
  set_outbox (fun o => o ++ messages) (set_smtp_trace (fun t => t ++ calls) w).

(** The messages a call of [send_notification] hands to the mail server. *)
Definition mail_sent (self : PropertyMonitor) (new : list NewListing)
    (w : World) : list Email :=
  if not_email_to (email_to self) then []
  else if delivers w
       then [compose_message self (default EmptyString (email_to self)) new]
       else [].

(** The SMTP calls a run makes when the snapshot has been written. *)
Definition run_calls `{JsonLib} (self : PropertyMonitor) (w : World)
    : list SmtpStage :=
  match all_news self (sites self) w with
  | [] => []
  | _ :: _ => session_calls self w
  end.

(** The messages a run hands to the mail server when the snapshot has
    been written. *)
Definition run_mail `{JsonLib} (self : PropertyMonitor) (w : World) : list Email :=
  match all_news self (sites self) w with
  | [] => []
  | (_ :: _) as news => mail_sent self news w
  end.

End Notification.

(** ** A concrete web, disk and mail server *)

Module Example.

Import TreeHtml.

Definition span (class content : string) : Element :=
  Elem "span" [class] [] content [].

(** A card of the Boliga page. *)
Definition card (content : list Element) : Element :=
  Elem "div" ["propertyitem"] [] EmptyString content.

Definition boliga_cards : list Element :=
  [ card [ span "address" " Havneholmen 12, 2. tv ";
           span "price" "4.500.000 kr";
           span "size" "95 m2";
           Elem "a" ["property-link"] [("href", "/bolig/1")] "Se bolig" [] ];
    card [ span "address" "Havneholmen 12, 2. tv";
           span "price" "4.500.000 kr" ];
    card [ span "address" "Islands Brygge 5";
           span "price" "3.000.000 kr" ];
    card [ span "address" "HAVNEHOLMEN 20";
           Elem "a" ["property-link"] [] "Se bolig" [] ];
    card [ span "price" "1 kr" ];
    card [ span "address" "Havneholmen 30";
           span "price" "5.000.000 kr" ] ].

Definition boliga_document : Element :=
  Elem "[document]" [] [] EmptyString
    [ Elem "html" [] [] EmptyString
        [ Elem "body" [] [] EmptyString boliga_cards ] ].

(** The text of the Boliga page; the tree above is its parse. *)
Definition boliga_html : string :=
  "<html><body>"
  +:+ "<div class='propertyitem'><span class='address'> Havneholmen 12, 2. tv </span>"
  +:+ "<span class='price'>4.500.000 kr</span><span class='size'>95 m2</span>"
  +:+ "<a class='property-link' href='/bolig/1'>Se bolig</a></div>"
  +:+ "<div class='propertyitem'><span class='address'>Havneholmen 12, 2. tv</span>"
  +:+ "<span class='price'>4.500.000 kr</span></div>"
  +:+ "<div class='propertyitem'><span class='address'>Islands Brygge 5</span>"
  +:+ "<span class='price'>3.000.000 kr</span></div>"
  +:+ "<div class='propertyitem'><span class='address'>HAVNEHOLMEN 20</span>"
  +:+ "<a class='property-link'>Se bolig</a></div>"
  +:+ "<div class='propertyitem'><span class='price'>1 kr</span></div>"
  +:+ "<div class='propertyitem'><span class='address'>Havneholmen 30</span>"
  +:+ "<span class='price'>5.000.000 kr</span></div>"
  +:+ "</body></html>".

Definition html : HtmlLib := TreeHtml.lib [(boliga_html, boliga_document)].
Definition str : StrLib := AsciiStr.lib.
Definition codec : JsonLib := JsonText.lib.

(** The listing seen by the previous run. *)
Definition old_listing : Listing :=
  {| address := "Havneholmen 12, 2. tv"; price := "4.500.000 kr";
     size := "95 m2"; link := "https://www.boliga.dk/bolig/1";
     found_date := "2025-01-14" |}.

(** The monitor after [__init__] found the snapshot of the previous run. *)
Definition monitor : PropertyMonitor :=
  {| target_street := "havneholmen"; postal_code := "1561";
     email_to := Some "me@example.com";
     previous_listings := snapshot_to_json [("Boliga", [old_listing])] |}.

Definition boliga_site : Site :=
  {| name := "Boliga";
     url := "https://www.boliga.dk/resultat?q=havneholmen&postnr=1561";
     parser := @parse_boliga html str monitor |}.

Definition home_site : Site :=
  {| name := "Home";
     url := "https://home.dk/ejendomme?searchtext=havneholmen%201561";
     parser := @parse_home html str monitor |}.

Definition boliga_response : Response :=
  {| status_code := 200; text := boliga_html |}.

Definition home_response : Response :=
  {| status_code := 404; text := "Not Found" |}.

(** Boliga answers with the page, Home with status 404, and the other
    servers cannot be reached.  Disk and mail server work. *)
Definition web (u : string) : Result Response :=
  if String.eqb u (url boliga_site) then Ok boliga_response
  else if String.eqb u (url home_site) then Ok home_response
  else Raise (Exn "ConnectionError" "Max retries exceeded").

Definition w0 : World :=
  {| http_get := web; today := "2025-01-15";
     open_fault := None; write_fault := None; read_fault := None;
     smtp_fault := None;
     files := {[ snapshot_file :=
                   JsonText.dumps (snapshot_to_json [("Boliga", [old_listing])]) ]};
     log := []; smtp_trace := []; outbox := [] |}.

(** The same world with a mail server that refuses the login. *)
Definition w_login_refused : World :=
  set_smtp_fault
    (Some (SmtpLogin, Exn "SMTPAuthenticationError" "(535, b'5.7.8 Username and Password not accepted')"))
    w0.

(** The same world with a working directory that cannot be written. *)
Definition w_read_only : World :=
  {| http_get := web; today := "2025-01-15";
     open_fault := Some (Exn "PermissionError"
                           "[Errno 13] Permission denied: 'previous_listings.json'");
     write_fault := None; read_fault := None; smtp_fault := None;
     files := files w0; log := []; smtp_trace := []; outbox := [] |}.

(** The listings of the Boliga page. *)
Definition boliga_listings : list Listing :=
  [ {| address := "Havneholmen 12, 2. tv"; price := "4.500.000 kr";
       size := "95 m2"; link := "https://www.boliga.dk/bolig/1";
       found_date := "2025-01-15" |};
    {| address := "Havneholmen 12, 2. tv"; price := "4.500.000 kr";
       size := "Size not available"; link := "#";
       found_date := "2025-01-15" |};
    {| address := "Havneholmen 30"; price := "5.000.000 kr";
       size := "Size not available"; link := "#";
       found_date := "2025-01-15" |} ].

(** The monitor whose previous snapshot is the one the web shows now. *)
Definition monitor_up_to_date : PropertyMonitor :=
  {| target_street := "havneholmen"; postal_code := "1561";
     email_to := Some "me@example.com";
     previous_listings := snapshot_to_json [("Boliga", boliga_listings)] |}.

(** The frame of [run] when the loop reaches the first site. *)
Definition fr0 : Frame :=
  {| world := w0; all_current_listings := []; new_listings := [] |}.

Definition new_on_boliga : list NewListing :=
  [ {| site := "Boliga";
       details := {| address := "Havneholmen 30"; price := "5.000.000 kr";
                     size := "Size not available"; link := "#";
                     found_date := "2025-01-15" |} |} ].

(** The same world during an outage: no server can be reached. *)
Definition w_outage : World :=
  {| http_get := fun _ => Raise (Exn "ConnectionError" "Max retries exceeded");
     today := "2025-01-15";
     open_fault := None; write_fault := None; read_fault := None;
     smtp_fault := None;
     files := files w0; log := []; smtp_trace := []; outbox := [] |}.

(** A monitor that loaded a snapshot file holding a list. *)
Definition monitor_list_previous : PropertyMonitor :=
  {| target_street := "havneholmen"; postal_code := "1561";
     email_to := Some "me@example.com";
     previous_listings := JArr [] |}.

(** The same world without a snapshot file. *)
Definition w_first : World :=
  {| http_get := web; today := "2025-01-15";
     open_fault := None; write_fault := None; read_fault := None;
     smtp_fault := None;
     files := ∅; log := []; smtp_trace := []; outbox := [] |}.

End Example.

(** * Properties *)

Arguments add_log : simpl never.
Arguments add_new : simpl never.

(** ** The world and the monad *)

Lemma add_log_nil w : add_log [] w = w.
Proof. destruct w; unfold add_log, set_log; simpl. by rewrite app_nil_r. Qed.

Lemma add_log_add_log a b w : add_log b (add_log a w) = add_log (a ++ b) w.
Proof. unfold add_log, set_log; simpl. by rewrite app_assoc. Qed.

Ltac frame_simpl :=
  cbn [set_world world all_current_listings new_listings app fst snd].

Lemma set_world_world fr : set_world (world fr) fr = fr.
Proof. by destruct fr. Qed.

Lemma set_world_set_world w1 w2 fr : set_world w2 (set_world w1 fr) = set_world w2 fr.
Proof. done. Qed.

Lemma bind_ok {S A B} (m : M S A) (k : A -> M S B) s a s' :
  m s = (Ok a, s') -> bind m k s = k a s'.
Proof. unfold bind. by intros ->. Qed.

Lemma bind_raise {S A B} (m : M S A) (k : A -> M S B) s e s' :
  m s = (Raise e, s') -> bind m k s = (Raise e, s').
Proof. unfold bind. by intros ->. Qed.

Lemma in_world_eq {A} (m : M World A) fr r w :
  m (world fr) = (r, w) -> in_world m fr = (r, set_world w fr).
Proof. unfold in_world. by intros ->. Qed.

Lemma logger_info_eq msg w : logger_info msg w = (Ok tt, add_log [(INFO, msg)] w).
Proof. done. Qed.

Lemma logger_error_eq msg w : logger_error msg w = (Ok tt, add_log [(ERROR, msg)] w).
Proof. done. Qed.

(** ** The parse methods *)

Section Parsing.
Context `{HtmlLib} `{StrLib}.

Lemma parse_cards_eq mk self cards listings w :
  parse_cards mk self cards listings w =
  (Ok (listings ++ cards_listings mk self (today w) cards),
   add_log (cards_errors mk self (today w) cards) w).
Proof.
  revert listings w. induction cards as [|card rest IH]; intros listings w; simpl.
  - by rewrite app_nil_r, add_log_nil.
  - unfold bind at 1, try_except, gets, lift. unfold bind at 1. simpl.
    destruct (card_listing mk self (today w) card) as [[listing|]|e]; simpl.
    + rewrite IH. by rewrite <- app_assoc.
    + by rewrite IH.
    + rewrite IH. simpl. by rewrite add_log_add_log.
Qed.

Lemma parse_page_eq mk self html w :
  parse_page mk self html w =
  match BeautifulSoup html with
  | Ok soup =>
      (Ok (cards_listings mk self (today w) (select soup (card_selector mk))),
       add_log (cards_errors mk self (today w) (select soup (card_selector mk))) w)
  | Raise e => (Raise e, w)
  end.
Proof.
  unfold parse_page, bind, lift.
  destruct (BeautifulSoup html) as [soup|e]; [|done].
  by rewrite parse_cards_eq.
Qed.

Lemma parse_page_clock_and_log_only mk self :
  clock_and_log_only (parse_page mk self).
Proof.
  exists (fun date html =>
            match BeautifulSoup html with
            | Ok soup => Ok (cards_listings mk self date (select soup (card_selector mk)))
            | Raise e => Raise e
            end),
         (fun date html =>
            match BeautifulSoup html with
            | Ok soup => cards_errors mk self date (select soup (card_selector mk))
            | Raise e => []
            end).
  intros html w. rewrite parse_page_eq.
  destruct (BeautifulSoup html); [done|]. by rewrite add_log_nil.
Qed.

Lemma cards_listings_In mk self date cards listing :
  In listing (cards_listings mk self date cards) ->
  exists card, In card cards /\ card_listing mk self date card = Ok (Some listing).
Proof.
  induction cards as [|card rest IH]; simpl; [done|].
  destruct (card_listing mk self date card) as [[l|]|e] eqn:E.
  - intros [->|Hin]; [eauto|]. destruct (IH Hin) as (c & ? & ?); eauto.
  - intros Hin. destruct (IH Hin) as (c & ? & ?); eauto.
  - intros Hin. destruct (IH Hin) as (c & ? & ?); eauto.
Qed.

Lemma sites_names self :
  map name (sites self) = ["Boliga"; "Home"; "Nybolig"; "EDC"; "Danbolig"; "Boligsiden"].
Proof. done. Qed.

Lemma sites_clock_and_log_only self :
  Forall (fun s => clock_and_log_only (parser s)) (sites self).
Proof. repeat constructor; apply parse_page_clock_and_log_only. Qed.

End Parsing.

(** ** The comparison with the previous snapshot *)

Lemma add_new_nil fr : add_new [] fr = fr.
Proof. destruct fr; unfold add_new, set_new_listings; simpl. by rewrite app_nil_r. Qed.

Lemma add_new_add_new a b fr : add_new b (add_new a fr) = add_new (a ++ b) fr.
Proof. unfold add_new, set_new_listings; simpl. by rewrite app_assoc. Qed.

Lemma check_new_eq site_name previous listings fr :
  check_new site_name previous listings fr =
  (match snd (novelties site_name previous listings) with
   | None => Ok tt
   | Some e => Raise e
   end,
   add_new (fst (novelties site_name previous listings)) fr).
Proof.
  revert fr. induction listings as [|listing rest IH]; intros fr; simpl.
  - by rewrite add_new_nil.
  - unfold bind at 1, lift.
    destruct (is_new listing previous) as [fresh|e]; simpl.
    + destruct (novelties site_name previous rest) as [items err] eqn:E.
      destruct fresh; unfold bind, modify, ret; rewrite IH; simpl.
      * by rewrite add_new_add_new.
      * done.
    + by rewrite add_new_nil.
Qed.

(** ** One site *)

Lemma scraped_add_log s records w :
  clock_and_log_only (parser s) ->
  scraped s (add_log records w) = scraped s w.
Proof.
  intros (f & g & Hp). unfold scraped. simpl.
  destruct (http_get w (url s)) as [response|e]; [|done].
  destruct (status_code response =? 200); [|done].
  by rewrite !Hp.
Qed.

Lemma scraped_set_smtp_fault s o w :
  clock_and_log_only (parser s) ->
  scraped s (set_smtp_fault o w) = scraped s w.
Proof.
  intros (f & g & Hp). unfold scraped. simpl.
  destruct (http_get w (url s)) as [response|e]; [|done].
  destruct (status_code response =? 200); [|done].
  by rewrite !Hp.
Qed.

(** The body of the loop over the sites never raises; it logs, records
    the listings of a scraped site and appends its new entries. *)
Lemma check_site_eq self s fr :
  clock_and_log_only (parser s) ->
  exists records,
    check_site self s fr =
    (Ok tt,
     {| world := add_log records (world fr);
        all_current_listings := record_site (world fr) (all_current_listings fr) s;
        new_listings := new_listings fr ++ site_news self s (world fr) |}).
Proof.
  intros (f & g & Hp). destruct fr as [w current new].
  unfold check_site, try_except, record_site, site_news, scraped.
  unfold bind at 1. unfold in_world at 1. rewrite logger_info_eq. simpl.
  unfold bind at 1. unfold in_world at 1, requests_get. simpl.
  destruct (http_get w (url s)) as [response|e]; simpl.
  - destruct (status_code response =? 200).
    + unfold bind at 1. unfold in_world at 1. simpl. rewrite !Hp. simpl.
      destruct (f (today w) (text response)) as [listings|e]; simpl.
      * unfold bind at 1, modify. unfold bind at 1, lift.
        destruct (py_get (previous_listings self) (name s) (JArr [])) as [previous|e].
        -- rewrite check_new_eq. simpl.
           destruct (novelties (name s) previous listings) as [items [e|]]; simpl.
           ++ unfold in_world. rewrite logger_error_eq. simpl.
              rewrite !add_log_add_log. eexists. reflexivity.
           ++ rewrite add_log_add_log. eexists. reflexivity.
        -- unfold in_world. rewrite logger_error_eq. simpl.
           rewrite !add_log_add_log, app_nil_r. eexists. reflexivity.
      * unfold in_world. rewrite logger_error_eq. simpl.
        rewrite !add_log_add_log, app_nil_r. eexists. reflexivity.
    + unfold in_world. rewrite logger_error_eq. simpl.
      rewrite !add_log_add_log, app_nil_r. eexists. reflexivity.
  - unfold in_world. rewrite logger_error_eq. simpl.
    rewrite !add_log_add_log, app_nil_r. eexists. reflexivity.
Qed.

(** ** The loop over the sites *)

Lemma for_each_check_site_from self ss fr w0 records0 :
  Forall (fun s => clock_and_log_only (parser s)) ss ->
  world fr = add_log records0 w0 ->
  exists records,
    for_each (check_site self) ss fr =
    (Ok tt,
     {| world := add_log records w0;
        all_current_listings := fold_left (record_site w0) ss (all_current_listings fr);
        new_listings := new_listings fr ++ all_news self ss w0 |}).
Proof.
  intros Hss. revert fr records0.
  induction Hss as [|s rest Hs Hrest IH]; intros fr records0 Hw; simpl.
  - exists records0. unfold ret. rewrite app_nil_r, <- Hw. by destruct fr.
  - destruct (check_site_eq self s fr Hs) as [records1 E1].
    rewrite (bind_ok _ _ _ _ _ E1).
    match goal with |- context [for_each _ rest ?fr1] =>
      destruct (IH fr1 (records0 ++ records1)) as [records E]
    end.
    { simpl. by rewrite Hw, add_log_add_log. }
    rewrite E. exists records. simpl. do 2 f_equal.
    + unfold record_site. by rewrite Hw, scraped_add_log.
    + unfold all_news, site_news. simpl.
      by rewrite Hw, scraped_add_log, app_assoc.
Qed.

Lemma for_each_check_site_eq self ss fr :
  Forall (fun s => clock_and_log_only (parser s)) ss ->
  exists records,
    for_each (check_site self) ss fr =
    (Ok tt,
     {| world := add_log records (world fr);
        all_current_listings :=
          fold_left (record_site (world fr)) ss (all_current_listings fr);
        new_listings := new_listings fr ++ all_news self ss (world fr) |}).
Proof.
  intros Hss. apply (for_each_check_site_from self ss fr (world fr) []); [done|].
  by rewrite add_log_nil.
Qed.

(** ** Saving and notifying *)

Lemma after_mail_nil w : after_mail [] [] w = w.
Proof.
  destruct w; unfold after_mail, set_outbox, set_smtp_trace; simpl.
  by rewrite !app_nil_r.
Qed.

(** Evaluates the updates of a world given by its fields. *)
Ltac world_norm :=
  cbv [add_log set_log after_mail set_outbox set_smtp_trace set_files
       set_smtp_fault smtp_fault smtp_trace outbox log files http_get today
       open_fault write_fault read_fault].

(** Runs a mail session on a world given by its fields. *)
Ltac run_session :=
  cbv [try_except bind send_message smtp_call modify delivers ret
       logger_error logger_info add_log set_log after_mail set_outbox
       set_smtp_trace smtp_fault smtp_trace outbox log files http_get today
       open_fault write_fault read_fault fst snd stage_eqb stage_index Nat.eqb
       calls_until smtp_session option_map].

Section SaveNotify.
Context `{HtmlLib} `{StrLib} `{JsonLib}.

Lemma save_listings_ok listings w :
  disk_ok w ->
  save_listings listings w =
  (Ok tt,
   set_files <[snapshot_file := json_dumps (snapshot_to_json listings)]>
     (set_files <[snapshot_file := EmptyString]> w)).
Proof.
  intros [Ho Hw]. unfold save_listings, bind, open_write, write_file.
  rewrite Ho. simpl. by rewrite Hw.
Qed.

Lemma save_listings_returns listings w w' :
  save_listings listings w = (Ok tt, w') -> disk_ok w.
Proof.
  unfold save_listings, bind, open_write, write_file, disk_ok.
  destruct (open_fault w); [done|]. simpl.
  destruct (write_fault w) as [[n e]|]; done.
Qed.

(** [send_notification] never raises; it logs, and hands over one message
    when a recipient is set and the session gets as far as sending. *)
Lemma send_notification_eq self new w :
  exists records,
    send_notification self new w =
    (Ok tt,
     add_log records (after_mail (session_calls self w) (mail_sent self new w) w)).
Proof.
  unfold send_notification, mail_sent, session_calls.
  destruct (not_email_to (email_to self)).
  - rewrite logger_info_eq, after_mail_nil. eauto.
  - generalize (compose_message self (default EmptyString (email_to self)) new).
    intros msg.
    destruct w as [hg td opf wf rf sf fs lg tr ob].
    destruct sf as [[[] e]|];
      run_session; rewrite <- ?app_assoc, ?app_nil_r; eexists; reflexivity.
Qed.

End SaveNotify.

(** ** The whole run *)

Section Run.
Context `{HtmlLib} `{StrLib} `{JsonLib}.

(** [run] in one equation: the loop over the sites leaves the built
    snapshot and the new entries, then comes the write, then the mail. *)
Lemma run_eq self w :
  exists records,
    run self w =
    match save_listings (built_snapshot (sites self) w) (add_log records w) with
    | (Raise e, w2) => (Raise e, w2)
    | (Ok _, w2) =>
        match all_news self (sites self) w with
        | [] => (Ok [], add_log [(INFO, "No new listings found")] w2)
        | (_ :: _) as news =>
            match send_notification self news
                    (add_log [(INFO, "Found " +:+ pretty (length news)
                                     +:+ " new listings!")] w2) with
            | (Ok _, w3) => (Ok news, w3)
            | (Raise e, w3) => (Raise e, w3)
            end
        end
    end.
Proof.
  unfold run, run_frame.
  unfold bind at 1. unfold in_world at 1. rewrite logger_info_eq.
  cbn [set_world world all_current_listings new_listings].
  match goal with |- context [bind (for_each _ _) _ ?fr1] =>
    destruct (for_each_check_site_from self (sites self) fr1 w
                [(INFO, "Starting property monitor for street: "
                        +:+ target_street self +:+ " in " +:+ postal_code self)]
                (sites_clock_and_log_only self) eq_refl) as [records E]
  end.
  exists records. rewrite (bind_ok _ _ _ _ _ E). frame_simpl.
  unfold bind at 1, gets. frame_simpl.
  unfold bind at 1. unfold in_world at 1. frame_simpl.
  fold (built_snapshot (sites self) w).
  destruct (save_listings (built_snapshot (sites self) w) (add_log records w))
    as [[[]|e] w2]; frame_simpl; [|done].
  unfold bind at 1. frame_simpl.
  destruct (all_news self (sites self) w) as [|item news].
  - unfold bind, in_world. frame_simpl. by rewrite logger_info_eq.
  - unfold bind, in_world. frame_simpl. rewrite logger_info_eq. frame_simpl.
    destruct (send_notification self (item :: news) _) as [[[]|e] w3]; done.
Qed.

End Run.

(** ** Dictionaries *)

Lemma dict_get_set_eq {V} k (v : V) d : dict_get k (dict_set k v d) = Some v.
Proof.
  induction d as [|[k' v'] d IH]; simpl.
  - by rewrite String.eqb_refl.
  - destruct (String.eqb k k') eqn:E; simpl; rewrite E; [done|apply IH].
Qed.

Lemma dict_get_set_ne {V} k k' (v : V) d :
  k <> k' -> dict_get k' (dict_set k v d) = dict_get k' d.
Proof.
  intros Hne. induction d as [|[k0 v0] d IH]; simpl.
  - destruct (String.eqb k' k) eqn:E; [|done].
    apply String.eqb_eq in E. congruence.
  - destruct (String.eqb k k0) eqn:E; simpl.
    + apply String.eqb_eq in E. subst k0.
      destruct (String.eqb k' k) eqn:E'; [|done].
      apply String.eqb_eq in E'. congruence.
    + by rewrite IH.
Qed.

Lemma dict_keys_set_eq {V} k (v : V) d :
  In k (dict_keys d) -> dict_keys (dict_set k v d) = dict_keys d.
Proof.
  induction d as [|[k' v'] d IH]; simpl; [done|].
  destruct (String.eqb k k') eqn:E; [done|]. simpl.
  intros [->|Hin]; [by rewrite String.eqb_refl in E|]. by rewrite IH.
Qed.

Lemma dict_keys_set_ne {V} k (v : V) d :
  ~ In k (dict_keys d) -> dict_keys (dict_set k v d) = dict_keys d ++ [k].
Proof.
  induction d as [|[k' v'] d IH]; simpl; [done|].
  intros Hnin. destruct (String.eqb k k') eqn:E.
  - apply String.eqb_eq in E. subst k'. exfalso. apply Hnin. by left.
  - simpl. rewrite IH; [done|]. intros Hin. apply Hnin. by right.
Qed.

Lemma dict_set_NoDup {V} k (v : V) d :
  NoDup (dict_keys d) -> NoDup (dict_keys (dict_set k v d)).
Proof.
  intros Hd. destruct (decide (k ∈ dict_keys d)) as [Hin|Hnin].
  - rewrite dict_keys_set_eq; [done|]. by apply list_elem_of_In.
  - rewrite dict_keys_set_ne by (by rewrite <- list_elem_of_In).
    apply NoDup_app. split_and!; [done| |apply NoDup_singleton].
    intros x Hx Hx'. apply list_elem_of_singleton in Hx'. by subst.
Qed.

Lemma flat_map_all_nil {A B} (f : A -> list B) l :
  (forall x, In x l -> f x = []) -> flat_map f l = [].
Proof.
  induction l as [|x l IH]; simpl; [done|].
  intros Hall. rewrite (Hall x) by auto. apply IH. auto.
Qed.

Lemma filter_all_false {A} (f : A -> bool) l :
  (forall x, In x l -> f x = false) -> List.filter f l = [].
Proof.
  induction l as [|x l IH]; simpl; [done|].
  intros Hall. rewrite (Hall x) by auto. apply IH. auto.
Qed.

Lemma map_injective_on {A B} (f : A -> B) l a b :
  NoDup (map f l) -> In a l -> In b l -> f a = f b -> a = b.
Proof.
  induction l as [|x l IH]; simpl; [done|].
  intros Hnd Ha Hb Hab. inversion Hnd as [|? ? Hx Hl]; subst.
  rewrite list_elem_of_In in Hx.
  destruct Ha as [->|Ha], Hb as [->|Hb]; [done| | |by apply IH].
  - exfalso. apply Hx. rewrite Hab. by apply in_map.
  - exfalso. apply Hx. rewrite <- Hab. by apply in_map.
Qed.

(** ** The test for novelty on a well-formed previous list *)

Lemma same_keyb_spec a b : same_keyb a b = true <-> same_key a b.
Proof.
  unfold same_keyb, same_key.
  by rewrite andb_true_iff, !String.eqb_eq.
Qed.

Lemma seen_beforeb_spec previous listing :
  seen_beforeb previous listing = true <-> seen_before previous listing.
Proof.
  unfold seen_beforeb, seen_before. rewrite existsb_exists.
  split; intros (p & Hp & Hk); exists p; split; try done; by apply same_keyb_spec.
Qed.

Lemma seen_beforeb_self listings listing :
  In listing listings -> seen_beforeb listings listing = true.
Proof.
  intros Hin. apply seen_beforeb_spec. by exists listing.
Qed.

Lemma scan_previous_listings listing previous :
  scan_previous listing (map listing_to_json previous) =
  Ok (negb (seen_beforeb previous listing)).
Proof.
  induction previous as [|p previous IH]; [done|].
  cbn [map scan_previous seen_beforeb existsb].
  change (py_getitem (listing_to_json p) "address") with (Ok (JStr (address p))).
  change (py_getitem (listing_to_json p) "price") with (Ok (JStr (price p))).
  cbn [result_bind py_eq_str]. unfold same_keyb at 1.
  destruct (String.eqb (address listing) (address p)); [|exact IH].
  destruct (String.eqb (price listing) (price p)); [done|exact IH].
Qed.

Lemma is_new_listings listing previous :
  is_new listing (JArr (map listing_to_json previous)) =
  Ok (negb (seen_beforeb previous listing)).
Proof. apply scan_previous_listings. Qed.

Lemma novelties_listings site_name previous listings :
  novelties site_name (JArr (map listing_to_json previous)) listings =
  (map (fun l => {| site := site_name; details := l |})
     (List.filter (fun l => negb (seen_beforeb previous l)) listings),
   None).
Proof.
  induction listings as [|l listings IH]; [done|].
  cbn [novelties List.filter]. rewrite is_new_listings, IH.
  by destruct (seen_beforeb previous l).
Qed.

(** Whatever the previous value is, the entries appended for a site carry
    its name and one of its listings. *)
Lemma novelties_In site_name previous listings item :
  In item (fst (novelties site_name previous listings)) ->
  site item = site_name /\ In (details item) listings.
Proof.
  induction listings as [|l listings IH]; simpl; [done|].
  destruct (is_new l previous) as [fresh|e]; [|done].
  destruct (novelties site_name previous listings) as [items err]. simpl in *.
  rewrite in_app_iff. intros [Hin|Hin].
  - destruct fresh; [|done]. destruct Hin as [<-|[]]. simpl. auto.
  - destruct (IH Hin). auto.
Qed.

Lemma site_news_In self s w item :
  In item (site_news self s w) ->
  site item = name s /\
  exists listings, scraped s w = Some listings /\ In (details item) listings.
Proof.
  unfold site_news. destruct (scraped s w) as [listings|]; [|done].
  destruct (py_get _ _ _) as [previous|e]; [|done].
  intros Hin. apply novelties_In in Hin as [? ?]. eauto.
Qed.

(** ** The snapshot a run builds *)

Lemma fold_record_site_other w n ss d :
  ~ In n (map name ss) ->
  dict_get n (fold_left (record_site w) ss d) = dict_get n d.
Proof.
  revert d. induction ss as [|s ss IH]; intros d Hn; simpl in *; [done|].
  rewrite IH by tauto. unfold record_site.
  destruct (scraped s w); [|done]. apply dict_get_set_ne. tauto.
Qed.

Lemma fold_record_site_In w s ss d :
  NoDup (map name ss) -> In s ss ->
  dict_get (name s) (fold_left (record_site w) ss d) =
  match scraped s w with
  | Some listings => Some listings
  | None => dict_get (name s) d
  end.
Proof.
  revert d. induction ss as [|s0 ss IH]; intros d Hnd Hin; simpl in *; [done|].
  inversion Hnd as [|? ? Hs0 Hss]; subst. rewrite list_elem_of_In in Hs0.
  destruct Hin as [->|Hin].
  - rewrite fold_record_site_other by done. unfold record_site.
    destruct (scraped s w); [|done]. apply dict_get_set_eq.
  - rewrite IH by done. destruct (scraped s w); [done|].
    unfold record_site. destruct (scraped s0 w); [|done].
    apply dict_get_set_ne. intros E. apply Hs0. rewrite E. by apply in_map.
Qed.

Lemma built_snapshot_get ss w s :
  NoDup (map name ss) -> In s ss ->
  dict_get (name s) (built_snapshot ss w) = scraped s w.
Proof.
  intros Hnd Hin. unfold built_snapshot. rewrite fold_record_site_In by done.
  by destruct (scraped s w).
Qed.

Lemma fold_record_site_Some w n listings ss d :
  dict_get n (fold_left (record_site w) ss d) = Some listings ->
  dict_get n d = Some listings \/
  exists s, In s ss /\ name s = n /\ scraped s w = Some listings.
Proof.
  revert d. induction ss as [|s ss IH]; intros d; simpl; [auto|].
  intros Hget. apply IH in Hget as [Hget|(s' & ? & ? & ?)]; [|eauto 6].
  unfold record_site in Hget. destruct (scraped s w) as [l|] eqn:E; [|auto].
  destruct (decide (name s = n)) as [<-|Hne].
  - rewrite dict_get_set_eq in Hget. inversion Hget; subst. eauto 6.
  - rewrite dict_get_set_ne in Hget by done. auto.
Qed.

Lemma dict_get_snapshot_to_json n snapshot :
  match snapshot_to_json snapshot with
  | JObj members => dict_get n members
  | _ => None
  end = option_map (fun ls => JArr (map listing_to_json ls)) (dict_get n snapshot).
Proof.
  unfold snapshot_to_json. induction snapshot as [|[k ls] d IH]; simpl; [done|].
  by destruct (String.eqb n k).
Qed.

Lemma py_get_snapshot_to_json n snapshot default :
  py_get (snapshot_to_json snapshot) n default =
  Ok match dict_get n snapshot with
     | Some ls => JArr (map listing_to_json ls)
     | None => default
     end.
Proof.
  pose proof (dict_get_snapshot_to_json n snapshot) as E.
  unfold snapshot_to_json in *. simpl in *. rewrite E.
  by destruct (dict_get n snapshot).
Qed.

Lemma sites_NoDup `{HtmlLib} `{StrLib} self : NoDup (map name (sites self)).
Proof. rewrite sites_names. apply (bool_decide_unpack _). by vm_compute. Qed.

(** ** A run on a disk that works, and on one that does not *)

Section RunCases.
Context `{HtmlLib} `{StrLib} `{JsonLib}.

Lemma mail_sent_add_log self new records w :
  mail_sent self new (add_log records w) = mail_sent self new w.
Proof. done. Qed.

Lemma mail_sent_set_files self new f w :
  mail_sent self new (set_files f w) = mail_sent self new w.
Proof. done. Qed.

Lemma session_calls_add_log self records w :
  session_calls self (add_log records w) = session_calls self w.
Proof. done. Qed.

Lemma session_calls_set_files self f w :
  session_calls self (set_files f w) = session_calls self w.
Proof. done. Qed.

(** When the snapshot can be written, [run] returns the entries
    collected by the loop, replaces the snapshot file by the snapshot built
    in this run, and makes the SMTP calls of [run_calls], which hand over
    the mail of [run_mail]. *)
Lemma run_disk_ok self w :
  disk_ok w ->
  exists records,
    run self w =
    (Ok (all_news self (sites self) w),
     add_log records
       (after_mail (run_calls self w) (run_mail self w)
          (set_files
             <[snapshot_file :=
                 json_dumps (snapshot_to_json (built_snapshot (sites self) w))]>
             w))).
Proof.
  intros Hdisk. destruct (run_eq self w) as [records ->].
  rewrite save_listings_ok by (destruct Hdisk; by split).
  unfold run_mail, run_calls.
  destruct (all_news self (sites self) w) as [|item news].
  - exists (records ++ [(INFO, "No new listings found")]). f_equal.
    rewrite after_mail_nil. destruct w. world_norm.
    by rewrite insert_insert_eq, app_assoc.
  - match goal with |- context [send_notification self ?n ?w1] =>
      destruct (send_notification_eq self n w1) as [records' ->]
    end.
    eexists (records ++ _ :: records'). f_equal.
    rewrite mail_sent_add_log, !mail_sent_set_files, mail_sent_add_log.
    rewrite session_calls_add_log, !session_calls_set_files, session_calls_add_log.
    generalize (mail_sent self (item :: news) w) (session_calls self w).
    intros messages calls.
    destruct w. world_norm.
    rewrite insert_insert_eq. f_equal. by rewrite <- !app_assoc.
Qed.

(** When opening the snapshot for writing raises, so does [run]. *)
Lemma run_open_fault self w e :
  open_fault w = Some e ->
  exists records, run self w = (Raise e, add_log records w).
Proof.
  intros Hopen. destruct (run_eq self w) as [records ->]. exists records.
  unfold save_listings, bind, open_write. simpl. by rewrite Hopen.
Qed.

(** When writing the snapshot raises, so does [run], and a prefix of the
    new snapshot is left in the file. *)
Lemma run_write_fault self w n e :
  open_fault w = None ->
  write_fault w = Some (n, e) ->
  exists w', run self w = (Raise e, w').
Proof.
  intros Hopen Hwrite. destruct (run_eq self w) as [records ->].
  unfold save_listings, bind, open_write, write_file. simpl.
  rewrite Hopen. simpl. rewrite Hwrite. eauto.
Qed.

End RunCases.

(** ** Facts shared by the properties of [run] *)

Section RunFacts.
Context `{HtmlLib} `{StrLib} `{JsonLib}.

Lemma run_returns_inv self w result w' :
  run self w = (Ok result, w') ->
  disk_ok w /\ result = all_news self (sites self) w.
Proof.
  intros Hrun. destruct (run_eq self w) as [records E]. rewrite E in Hrun.
  destruct (save_listings _ _) as [[[]|e] w2] eqn:Hsave; [|done].
  apply save_listings_returns in Hsave. split; [exact Hsave|].
  destruct (all_news self (sites self) w) as [|item news].
  - by inversion Hrun.
  - cbv zeta in Hrun.
    destruct (send_notification self _ _) as [[[]|e] w3]; by inversion Hrun.
Qed.

Lemma run_persists self w result w' :
  run self w = (Ok result, w') ->
  files w' !! snapshot_file =
    Some (json_dumps (snapshot_to_json (built_snapshot (sites self) w))).
Proof.
  intros Hrun. destruct (run_returns_inv _ _ _ _ Hrun) as [Hdisk _].
  destruct (run_disk_ok self w Hdisk) as [records Hrun'].
  rewrite Hrun in Hrun'. inversion Hrun'; subst.
  unfold add_log, set_log, set_outbox, set_files. cbn [files].
  apply lookup_insert_eq.
Qed.

Lemma scraped_Some s w response listings :
  http_get w (url s) = Ok response ->
  status_code response = 200 ->
  fst (parser s (text response) w) = Ok listings ->
  scraped s w = Some listings.
Proof. intros Hget Hstatus Hparse. unfold scraped. by rewrite Hget, Hstatus, Hparse. Qed.

Lemma site_fails_scraped s w msg : site_fails s w msg -> scraped s w = None.
Proof.
  unfold scraped. intros [e Hget|response Hget Hstatus|response e Hget Hstatus Hparse];
    rewrite Hget; [done| |].
  - by apply Z.eqb_neq in Hstatus as ->.
  - by rewrite Hstatus, Hparse.
Qed.

Lemma site_news_listings self s w listings previous :
  scraped s w = Some listings ->
  py_get (previous_listings self) (name s) (JArr []) =
    Ok (JArr (map listing_to_json previous)) ->
  site_news self s w =
  map (fun l => {| site := name s; details := l |})
    (List.filter (fun l => negb (seen_beforeb previous l)) listings).
Proof.
  intros Hs Hp. unfold site_news. by rewrite Hs, Hp, novelties_listings.
Qed.

(** An entry of the result with the name of a site of the monitor was
    appended while that site was processed. *)
Lemma all_news_site self w s item :
  In s (sites self) ->
  site item = name s ->
  In item (all_news self (sites self) w) <-> In item (site_news self s w).
Proof.
  intros Hs Hname. unfold all_news. rewrite in_flat_map. split.
  - intros (s' & Hs' & Hin). destruct (site_news_In _ _ _ _ Hin) as [Hname' _].
    assert (s' = s) as ->; [|done].
    apply (map_injective_on name (sites self)); [apply sites_NoDup|done..|congruence].
  - eauto.
Qed.

End RunFacts.

(** ** What a card turns into *)

Section Cards.
Context `{HtmlLib} `{StrLib}.

(** A card gives a listing only if it has an address element whose text
    contains the street; the other fields come from the other elements or
    are the placeholders. *)
Lemma card_listing_Some mk self date card listing :
  card_listing mk self date card = Ok (Some listing) ->
  exists address_elem,
    select_one card (address_selector mk) = Some address_elem /\
    address listing = strip (tag_text address_elem) /\
    contains (lower (target_street self)) (lower (address listing)) = true /\
    price listing =
      match select_one card (price_selector mk) with
      | Some e => strip (tag_text e)
      | None => "Price not available"
      end /\
    size listing =
      match select_one card (size_selector mk) with
      | Some e => strip (tag_text e)
      | None => "Size not available"
      end /\
    match select_one card (link_selector mk) with
    | Some e => exists href,
        tag_attr e "href" = Some href /\ link listing = link_prefix mk +:+ href
    | None => link listing = "#"
    end /\
    found_date listing = date.
Proof.
  unfold card_listing.
  destruct (select_one card (address_selector mk)) as [address_elem|]; [|done].
  destruct (contains _ _) eqn:Hstreet; [|done].
  intros Hcard. exists address_elem.
  destruct (select_one card (link_selector mk)) as [link_elem|].
  - unfold tag_getitem in Hcard.
    destruct (tag_attr link_elem "href") as [href|]; [|done].
    simpl in Hcard. injection Hcard as <-. simpl. eauto 10.
  - simpl in Hcard. injection Hcard as <-. simpl. eauto 10.
Qed.

Lemma count_key_cards_listings mk self date k cards :
  count_key k (cards_listings mk self date cards) =
  count_cards mk self date k cards.
Proof.
  unfold count_key, count_cards, card_key.
  induction cards as [|card cards IH]; simpl; [done|].
  destruct (card_listing mk self date card) as [[listing|]|e]; simpl.
  - destruct (decide (listing_key listing = k)) as [->|Hne].
    + rewrite !bool_decide_eq_true_2 by done. simpl. by rewrite IH.
    + rewrite !bool_decide_eq_false_2 by congruence. done.
  - exact IH.
  - exact IH.
Qed.

Lemma parse_methods_parse_page parse mk :
  In (parse, mk) parse_methods -> parse = parse_page mk.
Proof.
  unfold parse_methods. simpl.
  intros [E|[E|[E|[E|[E|[E|[]]]]]]]; by injection E as <- <-.
Qed.

End Cards.

(** ** The mail server does not reach the rest of a run *)

Section Mail.
Context `{HtmlLib} `{StrLib} `{JsonLib}.

Lemma all_news_set_smtp_fault self ss o w :
  Forall (fun s => clock_and_log_only (parser s)) ss ->
  all_news self ss (set_smtp_fault o w) = all_news self ss w.
Proof.
  intros Hss. unfold all_news.
  induction Hss as [|s ss Hs _ IH]; simpl; [done|].
  rewrite IH. f_equal. unfold site_news. by rewrite scraped_set_smtp_fault.
Qed.

Lemma fold_record_site_set_smtp_fault ss o w d :
  Forall (fun s => clock_and_log_only (parser s)) ss ->
  fold_left (record_site (set_smtp_fault o w)) ss d = fold_left (record_site w) ss d.
Proof.
  intros Hss. revert d.
  induction Hss as [|s ss Hs _ IH]; intros d; simpl; [done|].
  rewrite IH. f_equal. unfold record_site. by rewrite scraped_set_smtp_fault.
Qed.

Lemma built_snapshot_set_smtp_fault ss o w :
  Forall (fun s => clock_and_log_only (parser s)) ss ->
  built_snapshot ss (set_smtp_fault o w) = built_snapshot ss w.
Proof. apply fold_record_site_set_smtp_fault. Qed.

(** The result of saving and the files it leaves depend on the disk only. *)
Lemma save_listings_same_disk listings w1 w2 :
  open_fault w1 = open_fault w2 ->
  write_fault w1 = write_fault w2 ->
  files w1 = files w2 ->
  fst (save_listings listings w1) = fst (save_listings listings w2) /\
  files (snd (save_listings listings w1)) = files (snd (save_listings listings w2)).
Proof.
  intros Ho Hw Hf. unfold save_listings, bind, open_write, write_file.
  rewrite Ho. destruct (open_fault w2); simpl; [done|].
  rewrite Hw. destruct (write_fault w2) as [[n e]|]; simpl; by rewrite Hf.
Qed.

Lemma send_notification_files self new w :
  fst (send_notification self new w) = Ok tt /\
  files (snd (send_notification self new w)) = files w.
Proof. by destruct (send_notification_eq self new w) as [records ->]. Qed.

(** What [run] returns and what it leaves on the disk do not depend on
    the mail server. *)
Lemma run_set_smtp_fault self o w :
  fst (run self (set_smtp_fault o w)) = fst (run self w) /\
  files (snd (run self (set_smtp_fault o w))) = files (snd (run self w)).
Proof.
  destruct (run_eq self (set_smtp_fault o w)) as [records1 ->].
  destruct (run_eq self w) as [records2 ->].
  rewrite all_news_set_smtp_fault, built_snapshot_set_smtp_fault
    by apply sites_clock_and_log_only.
  destruct (save_listings_same_disk (built_snapshot (sites self) w)
              (add_log records1 (set_smtp_fault o w)) (add_log records2 w))
    as [Hr Hf]; [done..|].
  destruct (save_listings _ (add_log records1 _)) as [r1 v1].
  destruct (save_listings _ (add_log records2 _)) as [r2 v2].
  simpl in Hr, Hf. subst r2. destruct r1 as [[]|e]; [|done].
  destruct (all_news self (sites self) w) as [|item news]; [done|].
  cbv zeta.
  match goal with |- context [send_notification self ?n (add_log ?r v1)] =>
    destruct (send_notification_files self n (add_log r v1)) as [Ha1 Hb1];
    destruct (send_notification_files self n (add_log r v2)) as [Ha2 Hb2]
  end.
  destruct (send_notification self _ (add_log _ v1)) as [r1 u1].
  destruct (send_notification self _ (add_log _ v2)) as [r2 u2].
  simpl in *. subst r1 r2. simpl. split; [done|]. congruence.
Qed.

(** With a recipient set and a mail server at fault, [send_notification]
    catches the exception and logs it last. *)
Lemma send_notification_fault self new w stage e :
  not_email_to (email_to self) = false ->
  smtp_fault w = Some (stage, e) ->
  exists w',
    send_notification self new w = (Ok tt, w') /\
    log w' = log w ++ [(ERROR, "Failed to send email notification: " +:+ exn_str e)] /\
    files w' = files w.
Proof.
  intros Hto Hfault. unfold send_notification. rewrite Hto.
  unfold try_except, bind, send_message, smtp_call, bind, modify.
  destruct w as [hg td opf wf rf sf fs lg ob]. simpl in *. subst sf.
  destruct stage; simpl; eexists; (split; [reflexivity|done]).
Qed.

End Mail.

(** ** The text codec reads back what it writes *)

Module JsonTextFacts.
Import JsonText.

Lemma append_cons x (a b : string) : String x a +:+ b = String x (a +:+ b).
Proof. reflexivity. Qed.

Lemma append_nil (b : string) : EmptyString +:+ b = b.
Proof. reflexivity. Qed.

Lemma append_assoc (a b c : string) : (a +:+ b) +:+ c = a +:+ b +:+ c.
Proof. induction a as [|x a IH]; [done|]. rewrite !append_cons. by f_equal. Qed.

Lemma length_append (a b : string) :
  String.length (a +:+ b) = (String.length a + String.length b)%nat.
Proof.
  induction a as [|x a IH]; [done|].
  rewrite append_cons. cbn [String.length Nat.add]. by f_equal.
Qed.

(** One escaped character is read back as the character. *)
Lemma parse_chars_escape_char c tail :
  parse_chars (escape_char c +:+ tail) =
  match parse_chars tail with
  | Some (str, rest) => Some (String c str, rest)
  | None => None
  end.
Proof.
  destruct c as [[] [] [] [] [] [] [] []]; reflexivity.
Qed.

Lemma parse_chars_escape s rest :
  parse_chars (escape s +:+ dq +:+ rest) = Some (s, rest).
Proof.
  induction s as [|c s IH]; [done|].
  cbn [escape]. by rewrite append_assoc, parse_chars_escape_char, IH.
Qed.


(** Induction on a value with the hypothesis for every item and member. *)
Lemma json_nested_ind (P : json -> Prop) :
  P JNull ->
  (forall b, P (JBool b)) ->
  (forall n, P (JNum n)) ->
  (forall s, P (JStr s)) ->
  (forall items, Forall P items -> P (JArr items)) ->
  (forall members, Forall (fun kv => P (snd kv)) members -> P (JObj members)) ->
  forall v, P v.
Proof.
  intros Hnull Hbool Hnum Hstr Harr Hobj.
  fix IH 1. intros [|b|n|s|items|members].
  - exact Hnull.
  - apply Hbool.
  - apply Hnum.
  - apply Hstr.
  - apply Harr. induction items as [|x items IHitems]; constructor.
    + apply IH.
    + exact IHitems.
  - apply Hobj. induction members as [|[k x] members IHmembers]; constructor.
    + apply IH.
    + exact IHmembers.
Qed.

(** Whitespace *)

Lemma skip_ws_spaces n s : skip_ws (spaces n +:+ s) = skip_ws s.
Proof. induction n as [|n IH]; [done|]. exact IH. Qed.

Lemma skip_ws_newline_indent level s : skip_ws (newline_indent level +:+ s) = skip_ws s.
Proof.
  unfold newline_indent. rewrite append_assoc.
  change (skip_ws (nl +:+ spaces (2 * level) +:+ s))
    with (skip_ws (spaces (2 * level) +:+ s)).
  apply skip_ws_spaces.
Qed.

Lemma skip_ws_idem s : skip_ws (skip_ws s) = skip_ws s.
Proof.
  induction s as [|c s IH]; [done|]. cbn [skip_ws].
  destruct (is_ws c) eqn:E; [done|]. cbn [skip_ws]. by rewrite E.
Qed.

Lemma parse_value_skip_ws fuel s : parse_value fuel (skip_ws s) = parse_value fuel s.
Proof. destruct fuel; [done|]. cbn [parse_value]. by rewrite skip_ws_idem. Qed.

Lemma parse_members_skip_ws fuel s :
  parse_members fuel (skip_ws s) = parse_members fuel s.
Proof. destruct fuel; [done|]. cbn [parse_members]. by rewrite skip_ws_idem. Qed.

Lemma parse_value_newline_indent fuel level s :
  parse_value fuel (newline_indent level +:+ s) = parse_value fuel s.
Proof.
  by rewrite <- parse_value_skip_ws, skip_ws_newline_indent, parse_value_skip_ws.
Qed.

Lemma parse_members_newline_indent fuel level s :
  parse_members fuel (newline_indent level +:+ s) = parse_members fuel s.
Proof.
  by rewrite <- parse_members_skip_ws, skip_ws_newline_indent, parse_members_skip_ws.
Qed.

Lemma quote_opens s rest : opens (quote s +:+ rest).
Proof.
  unfold quote. rewrite append_assoc. unfold dq. rewrite append_cons.
  eexists _, _. split; [reflexivity|]. by vm_compute.
Qed.

Lemma dumps_at_opens level v rest : storable v -> opens (dumps_at level v +:+ rest).
Proof.
  intros Hv. destruct Hv as [|b|s|items _|members _ _].
  - eexists _, _. split; [reflexivity|]. by vm_compute.
  - destruct b; (eexists _, _; split; [reflexivity|]; by vm_compute).
  - apply quote_opens.
  - destruct items; (eexists _, _; split; [reflexivity|]; by vm_compute).
  - destruct members; (eexists _, _; split; [reflexivity|]; by vm_compute).
Qed.


Lemma opens_skip_ws s : opens s -> skip_ws s = s.
Proof. intros (c & r & -> & Hws & _). cbn [skip_ws]. by rewrite Hws. Qed.

(** The equations of the reader on the first character *)

Lemma parse_value_quote fuel s rest :
  parse_value (S fuel) (quote s +:+ rest) = Some (JStr s, rest).
Proof.
  unfold quote. rewrite !append_assoc.
  change (parse_value (S fuel) (dq +:+ escape s +:+ dq +:+ rest))
    with (match parse_chars (escape s +:+ dq +:+ rest) with
          | Some (str, r) => Some (JStr str, r)
          | None => None
          end).
  by rewrite parse_chars_escape.
Qed.

Lemma parse_value_bracket fuel s :
  opens (skip_ws s) ->
  parse_value (S fuel) ("[" +:+ s) =
  match parse_items fuel s with
  | Some (items, r) => Some (JArr items, r)
  | None => None
  end.
Proof.
  intros Hs.
  change (parse_value (S fuel) ("[" +:+ s))
    with (match skip_ws s with
          | String c' r =>
              if (nat_of_ascii c' =? 93)%nat then Some (JArr [], r)
              else match parse_items fuel s with
                   | Some (items, r') => Some (JArr items, r')
                   | None => None
                   end
          | EmptyString => None
          end).
  destruct Hs as (c & r & -> & _ & Hc & _). by rewrite Hc.
Qed.

Lemma parse_value_brace fuel s :
  opens (skip_ws s) ->
  parse_value (S fuel) ("{" +:+ s) =
  match parse_members fuel s with
  | Some (pairs, r) => Some (JObj (dict_of_pairs pairs), r)
  | None => None
  end.
Proof.
  intros Hs.
  change (parse_value (S fuel) ("{" +:+ s))
    with (match skip_ws s with
          | String c' r =>
              if (nat_of_ascii c' =? 125)%nat then Some (JObj [], r)
              else match parse_members fuel s with
                   | Some (pairs, r') => Some (JObj (dict_of_pairs pairs), r')
                   | None => None
                   end
          | EmptyString => None
          end).
  destruct Hs as (c & r & -> & _ & _ & Hc). by rewrite Hc.
Qed.

Lemma parse_items_eq fuel s :
  parse_items (S fuel) s =
  match parse_value fuel s with
  | Some (v, r) =>
      match skip_ws r with
      | String c r' =>
          if (nat_of_ascii c =? 44)%nat then
            match parse_items fuel r' with
            | Some (vs, r'') => Some (v :: vs, r'')
            | None => None
            end
          else if (nat_of_ascii c =? 93)%nat then Some ([v], r')
          else None
      | EmptyString => None
      end
  | None => None
  end.
Proof. reflexivity. Qed.

Lemma items_continue fuel x s :
  match skip_ws ("," +:+ s) with
  | String c r' =>
      if (nat_of_ascii c =? 44)%nat then
        match parse_items fuel r' with
        | Some (vs, r'') => Some (x :: vs, r'')
        | None => None
        end
      else if (nat_of_ascii c =? 93)%nat then Some ([x], r')
      else None
  | EmptyString => None
  end =
  match parse_items fuel s with
  | Some (vs, r'') => Some (x :: vs, r'')
  | None => None
  end.
Proof. reflexivity. Qed.

Lemma join_cons sep a b l : join sep (a :: b :: l) = a +:+ sep +:+ join sep (b :: l).
Proof. reflexivity. Qed.

(** The items of a list *)

Lemma parse_items_join level items rest fuel :
  items <> [] ->
  Forall reads_back items ->
  (items_fuel items <= fuel)%nat ->
  parse_items fuel
    (newline_indent (S level)
     +:+ join (separator level) (map (dumps_at (S level)) items)
     +:+ newline_indent level +:+ "]" +:+ rest) =
  Some (items, rest).
Proof.
  intros Hne Hitems. revert fuel.
  induction Hitems as [|x items Hx Hitems IH]; [done|]. clear Hne.
  intros [|fuel] Hfuel; [simpl in Hfuel; lia|].
  cbn [items_fuel fold_right] in Hfuel. fold (items_fuel items) in Hfuel.
  rewrite parse_items_eq, parse_value_newline_indent.
  destruct items as [|y items].
  - cbn [map join]. rewrite Hx by lia.
    rewrite skip_ws_newline_indent. reflexivity.
  - cbn [map]. rewrite join_cons. rewrite !append_assoc. rewrite Hx by lia.
    unfold separator at 1. rewrite !append_assoc, items_continue.
    cbn [map] in IH. rewrite IH; [done|done|lia].
Qed.


(** The members of a dictionary *)

Lemma parse_value_space fuel s : parse_value fuel (" " +:+ s) = parse_value fuel s.
Proof. by rewrite <- parse_value_skip_ws, <- (parse_value_skip_ws _ s). Qed.

Lemma parse_members_key fuel k s :
  parse_members (S fuel) (quote k +:+ ": " +:+ s) =
  match parse_value fuel s with
  | Some (v, r) =>
      match skip_ws r with
      | String c r' =>
          if (nat_of_ascii c =? 44)%nat then
            match parse_members fuel r' with
            | Some (kvs, r'') => Some ((k, v) :: kvs, r'')
            | None => None
            end
          else if (nat_of_ascii c =? 125)%nat then Some ([(k, v)], r')
          else None
      | EmptyString => None
      end
  | None => None
  end.
Proof.
  unfold quote. rewrite !append_assoc.
  change (parse_members (S fuel) (dq +:+ ?t))
    with (match parse_chars t with
          | Some (key, r1) =>
              match skip_ws r1 with
              | String colon r2 =>
                  if (nat_of_ascii colon =? 58)%nat then
                    match parse_value fuel r2 with
                    | Some (v, r) =>
                        match skip_ws r with
                        | String c r' =>
                            if (nat_of_ascii c =? 44)%nat then
                              match parse_members fuel r' with
                              | Some (kvs, r'') => Some ((key, v) :: kvs, r'')
                              | None => None
                              end
                            else if (nat_of_ascii c =? 125)%nat
                                 then Some ([(key, v)], r')
                                 else None
                        | EmptyString => None
                        end
                    | None => None
                    end
                  else None
              | EmptyString => None
              end
          | None => None
          end).
  rewrite parse_chars_escape.
  change (skip_ws (": " +:+ s)) with (String ":" (" " +:+ s)).
  cbv beta iota.
  change (nat_of_ascii ":" =? 58)%nat with true. cbv beta iota.
  by rewrite parse_value_space.
Qed.

Lemma members_continue fuel kv s :
  match skip_ws ("," +:+ s) with
  | String c r' =>
      if (nat_of_ascii c =? 44)%nat then
        match parse_members fuel r' with
        | Some (kvs, r'') => Some (kv :: kvs, r'')
        | None => None
        end
      else if (nat_of_ascii c =? 125)%nat then Some ([kv], r')
      else None
  | EmptyString => None
  end =
  match parse_members fuel s with
  | Some (kvs, r'') => Some (kv :: kvs, r'')
  | None => None
  end.
Proof. reflexivity. Qed.

Lemma parse_members_join level members rest fuel :
  members <> [] ->
  Forall (fun kv => reads_back (snd kv)) members ->
  (members_fuel members <= fuel)%nat ->
  parse_members fuel
    (newline_indent (S level)
     +:+ join (separator level) (map (member_text level) members)
     +:+ newline_indent level +:+ "}" +:+ rest) =
  Some (members, rest).
Proof.
  intros Hne Hmembers. revert fuel.
  induction Hmembers as [|[k x] members Hx Hmembers IH]; [done|]. clear Hne.
  intros [|fuel] Hfuel; [simpl in Hfuel; lia|].
  cbn [members_fuel fold_right snd] in Hfuel. fold (members_fuel members) in Hfuel.
  cbn [snd] in Hx.
  rewrite parse_members_newline_indent.
  destruct members as [|y members].
  - cbn [map join]. unfold member_text at 1. cbn [fst snd].
    rewrite !append_assoc, parse_members_key. rewrite Hx by lia.
    rewrite skip_ws_newline_indent. reflexivity.
  - cbn [map]. rewrite join_cons. unfold member_text at 1. cbn [fst snd].
    rewrite !append_assoc, parse_members_key. rewrite Hx by lia.
    unfold separator at 1. rewrite !append_assoc, members_continue.
    cbn [map] in IH. rewrite IH; [done|done|lia].
Qed.

(** Assigning members with distinct keys in order gives them back. *)

Lemma dict_set_fresh {V} k (v : V) d :
  ~ In k (dict_keys d) -> dict_set k v d = d ++ [(k, v)].
Proof.
  induction d as [|[k' v'] d IH]; simpl; [done|].
  intros Hnin. destruct (String.eqb k k') eqn:E.
  - apply String.eqb_eq in E. subst k'. exfalso. apply Hnin. by left.
  - rewrite IH; [done|]. intros Hin. apply Hnin. by right.
Qed.

Lemma fold_dict_set_NoDup (members d : list (string * json)) :
  NoDup (dict_keys (d ++ members)) ->
  fold_left (fun d kv => dict_set (fst kv) (snd kv) d) members d = d ++ members.
Proof.
  revert d. induction members as [|[k v] members IH]; intros d Hnd; simpl.
  - by rewrite app_nil_r.
  - rewrite dict_set_fresh.
    + rewrite IH; rewrite <- app_assoc; done.
    + unfold dict_keys in Hnd. rewrite map_app in Hnd. simpl in Hnd.
      apply NoDup_app in Hnd as (_ & Hdisj & _).
      intros Hin. apply (Hdisj k); [by apply list_elem_of_In|]. by left.
Qed.

Lemma dict_of_pairs_NoDup members :
  NoDup (dict_keys members) -> dict_of_pairs members = members.
Proof. intros Hnd. by apply (fold_dict_set_NoDup members []). Qed.


(** The text of a non-empty list and of a non-empty dictionary *)

Lemma dumps_at_arr level items :
  items <> [] ->
  dumps_at level (JArr items) =
  "[" +:+ newline_indent (S level)
  +:+ join (separator level) (map (dumps_at (S level)) items)
  +:+ newline_indent level +:+ "]".
Proof. by destruct items. Qed.

Lemma dumps_at_obj level members :
  members <> [] ->
  dumps_at level (JObj members) =
  "{" +:+ newline_indent (S level)
  +:+ join (separator level) (map (member_text level) members)
  +:+ newline_indent level +:+ "}".
Proof. by destruct members. Qed.

Lemma join_opens level f (l : list json) rest x :
  (forall r, opens (f x +:+ r)) ->
  opens (skip_ws (newline_indent (S level)
                  +:+ join (separator level) (map f (x :: l)) +:+ rest)).
Proof.
  intros Hx. rewrite skip_ws_newline_indent.
  destruct l as [|y l].
  - cbn [map join]. rewrite opens_skip_ws; apply Hx.
  - cbn [map]. rewrite join_cons, !append_assoc. rewrite opens_skip_ws; apply Hx.
Qed.

Lemma members_opens level (l : list (string * json)) rest kv :
  opens (skip_ws (newline_indent (S level)
                  +:+ join (separator level) (map (member_text level) (kv :: l))
                  +:+ rest)).
Proof.
  rewrite skip_ws_newline_indent.
  assert (forall r, opens (member_text level kv +:+ r)) as Hkv.
  { intros r. unfold member_text. rewrite append_assoc. apply quote_opens. }
  destruct l as [|y l].
  - cbn [map join]. rewrite opens_skip_ws; apply Hkv.
  - cbn [map]. rewrite join_cons, !append_assoc. rewrite opens_skip_ws; apply Hkv.
Qed.

(** Reading back a storable value *)

Theorem parse_value_dumps_at v : storable v -> reads_back v.
Proof.
  induction v as [|b|n|s|items IH|members IH] using json_nested_ind;
    intros Hv level rest fuel Hfuel.
  - destruct fuel; [simpl in Hfuel; lia|]. reflexivity.
  - destruct fuel; [simpl in Hfuel; lia|]. by destruct b.
  - inversion Hv.
  - destruct fuel; [simpl in Hfuel; lia|]. apply parse_value_quote.
  - inversion Hv as [| | |? Hitems|]; subst.
    assert (Forall reads_back items) as Hread.
    { rewrite List.Forall_forall in IH, Hitems |- *. auto. }
    destruct fuel as [|fuel]; [simpl in Hfuel; lia|].
    cbn [fuel_for] in Hfuel. fold (items_fuel items) in Hfuel.
    destruct items as [|x items]; [reflexivity|].
    rewrite dumps_at_arr by done. rewrite !append_assoc.
    rewrite parse_value_bracket.
    + by rewrite parse_items_join by (done || lia).
    + apply join_opens. intros r. apply dumps_at_opens.
      by inversion Hitems.
  - inversion Hv as [| | | |? Hkeys Hmembers]; subst.
    assert (Forall (fun kv => reads_back (snd kv)) members) as Hread.
    { rewrite List.Forall_forall in IH, Hmembers |- *. auto. }
    destruct fuel as [|fuel]; [simpl in Hfuel; lia|].
    cbn [fuel_for] in Hfuel. fold (members_fuel members) in Hfuel.
    destruct members as [|kv members]; [reflexivity|].
    rewrite dumps_at_obj by done. rewrite !append_assoc.
    rewrite parse_value_brace by apply members_opens.
    rewrite parse_members_join by (done || lia).
    by rewrite dict_of_pairs_NoDup.
Qed.

(** The bound on the calls is below the length of the text *)

Lemma length_newline_indent level : (1 <= String.length (newline_indent level))%nat.
Proof. unfold newline_indent, nl. rewrite append_cons. simpl. lia. Qed.

Lemma items_fuel_join level items :
  Forall (fun x => forall l, (fuel_for x <= String.length (dumps_at l x))%nat) items ->
  (items_fuel items
   <= S (String.length (join (separator level) (map (dumps_at (S level)) items))))%nat.
Proof.
  induction 1 as [|x items Hx Hitems IH]; [simpl; lia|].
  cbn [items_fuel fold_right]. fold (items_fuel items).
  destruct items as [|y items].
  - cbn [map join items_fuel fold_right]. specialize (Hx (S level)). lia.
  - cbn [map]. rewrite join_cons, !length_append. cbn [map] in IH.
    specialize (Hx (S level)).
    assert (1 <= String.length (separator level))%nat.
    { unfold separator. rewrite append_cons. simpl. lia. }
    lia.
Qed.

Lemma members_fuel_join level members :
  Forall (fun kv => forall l, (fuel_for (snd kv) <= String.length (dumps_at l (snd kv)))%nat)
    members ->
  (members_fuel members
   <= S (String.length (join (separator level) (map (member_text level) members))))%nat.
Proof.
  induction 1 as [|[k x] members Hx Hmembers IH]; [simpl; lia|].
  cbn [members_fuel fold_right snd]. fold (members_fuel members).
  cbn [snd] in Hx. specialize (Hx (S level)).
  assert (fuel_for x <= String.length (member_text level (k, x)))%nat.
  { unfold member_text. rewrite !length_append. cbn [snd]. lia. }
  destruct members as [|y members].
  - cbn [map join members_fuel fold_right]. lia.
  - cbn [map]. rewrite join_cons, !length_append. cbn [map] in IH.
    assert (1 <= String.length (separator level))%nat.
    { unfold separator. rewrite append_cons. simpl. lia. }
    lia.
Qed.

Lemma pretty_N_go_length x s :
  (String.length s <= String.length (pretty_N_go x s))%nat.
Proof.
  revert s. induction (N.lt_wf_0 x) as [x _ IH]; intros s.
  destruct (decide (x = 0%N)) as [->|Hx]; [by rewrite pretty_N_go_0|].
  rewrite pretty_N_go_step by lia.
  etrans; [|apply IH; apply N.div_lt; lia]. simpl. lia.
Qed.

Lemma pretty_positive_length (p : positive) :
  (1 <= String.length (pretty p))%nat.
Proof.
  unfold pretty, pretty_positive, pretty, pretty_N.
  rewrite decide_False by done. rewrite pretty_N_go_step by lia.
  etrans; [|apply pretty_N_go_length]. simpl. lia.
Qed.

Lemma pretty_Z_length (n : Z) : (1 <= String.length (pretty n))%nat.
Proof.
  destruct n as [|p|p]; unfold pretty, pretty_Z.
  - simpl. lia.
  - apply pretty_positive_length.
  - rewrite append_cons. simpl. lia.
Qed.

Lemma fuel_for_length v level :
  (fuel_for v <= String.length (dumps_at level v))%nat.
Proof.
  revert level.
  induction v as [|b|n|s|items IH|members IH] using json_nested_ind; intros level.
  - simpl. lia.
  - destruct b; simpl; lia.
  - change (fuel_for (JNum n)) with 1%nat.
    change (dumps_at level (JNum n)) with (pretty n).
    apply pretty_Z_length.
  - change (fuel_for (JStr s)) with 1%nat.
    change (dumps_at level (JStr s)) with (quote s).
    unfold quote. rewrite !length_append. unfold dq. cbn [String.length]. lia.
  - destruct items as [|x items]; [simpl; lia|].
    rewrite dumps_at_arr by done. cbn [fuel_for]. fold (items_fuel (x :: items)).
    pose proof (items_fuel_join level (x :: items) IH).
    pose proof (length_newline_indent (S level)).
    rewrite !length_append. cbn [String.length]. lia.
  - destruct members as [|kv members]; [simpl; lia|].
    rewrite dumps_at_obj by done. cbn [fuel_for]. fold (members_fuel (kv :: members)).
    pose proof (members_fuel_join level (kv :: members) IH).
    pose proof (length_newline_indent (S level)).
    rewrite !length_append. cbn [String.length]. lia.
Qed.

Lemma append_empty (s : string) : s +:+ EmptyString = s.
Proof. induction s as [|c s IH]; [done|]. rewrite append_cons. by f_equal. Qed.

(** [loads] reads back what [dumps] writes for a storable value. *)
Theorem loads_dumps v : storable v -> loads (dumps v) = Ok v.
Proof.
  intros Hv. unfold loads, dumps.
  pose proof (parse_value_dumps_at v Hv 0%nat EmptyString
                (S (String.length (dumps_at 0 v)))) as Hparse.
  rewrite append_empty in Hparse. rewrite Hparse; [done|].
  pose proof (fuel_for_length v 0). lia.
Qed.

(** The snapshots of the script are storable. *)

Lemma listing_to_json_storable l : storable (listing_to_json l).
Proof.
  apply storable_obj.
  - apply (bool_decide_unpack _). by vm_compute.
  - repeat constructor.
Qed.

Lemma snapshot_to_json_storable snapshot :
  NoDup (dict_keys snapshot) -> storable (snapshot_to_json snapshot).
Proof.
  intros Hnd. apply storable_obj.
  - unfold dict_keys in *. rewrite map_map. simpl. exact Hnd.
  - apply List.Forall_forall. intros kv Hin. apply in_map_iff in Hin as ([k ls] & <- & _).
    simpl. apply storable_arr, List.Forall_forall.
    intros j Hj. apply in_map_iff in Hj as (l & <- & _).
    apply listing_to_json_storable.
Qed.

End JsonTextFacts.

(** ** Loading, and a second run *)

(** A snapshot file that can be read and decoded is what
    [load_previous_listings] returns. *)
Lemma load_previous_listings_file `{JsonLib} w content v :
  files w !! snapshot_file = Some content ->
  read_fault w = None ->
  json_loads content = Ok v ->
  load_previous_listings w = (Ok v, w).
Proof.
  intros Hfile Hread Hcodec.
  unfold load_previous_listings, bind at 1, path_exists, gets.
  rewrite Hfile, bool_decide_eq_true_2 by eauto.
  unfold try_except, bind, read_file, lift.
  by rewrite Hread, Hfile, Hcodec.
Qed.

(** Once [save_listings] has written a snapshot, on a disk that can be
    read and with a [json] module that reads back what it writes for this
    snapshot, [load_previous_listings] returns the snapshot. *)
Lemma load_after_save `{JsonLib} snapshot w w' :
  save_listings snapshot w = (Ok tt, w') ->
  read_fault w' = None ->
  json_loads (json_dumps (snapshot_to_json snapshot)) = Ok (snapshot_to_json snapshot) ->
  load_previous_listings w' = (Ok (snapshot_to_json snapshot), w').
Proof.
  intros Hsave Hread Hcodec.
  pose proof (save_listings_returns _ _ _ Hsave) as Hdisk.
  rewrite (save_listings_ok _ _ Hdisk) in Hsave. injection Hsave as <-.
  apply load_previous_listings_file with (json_dumps (snapshot_to_json snapshot));
    [apply lookup_insert_eq|exact Hread|exact Hcodec].
Qed.

Section Rerun.
Context `{HtmlLib} `{StrLib}.

(** The parse methods look at the street of the monitor only. *)
Lemma card_listing_street mk self self' date card :
  target_street self = target_street self' ->
  card_listing mk self date card = card_listing mk self' date card.
Proof. intros Hstreet. unfold card_listing. by rewrite Hstreet. Qed.

Lemma cards_listings_street mk self self' date cards :
  target_street self = target_street self' ->
  cards_listings mk self date cards = cards_listings mk self' date cards.
Proof.
  intros Hstreet. induction cards as [|card cards IH]; [done|].
  cbn [cards_listings]. by rewrite IH, (card_listing_street mk self self').
Qed.

Lemma record_site_same w w' d s s' :
  http_get w = http_get w' -> same_site w w' s s' ->
  record_site w d s = record_site w' d s'.
Proof.
  intros Hweb (Hname & Hurl & Hparser). unfold record_site, scraped.
  rewrite Hweb, Hurl, Hname.
  destruct (http_get w' (url s')) as [response|e]; [|done].
  destruct (status_code response =? 200); [|done]. by rewrite Hparser.
Qed.

Lemma fold_record_site_same w w' ss ss' d :
  http_get w = http_get w' -> Forall2 (same_site w w') ss ss' ->
  fold_left (record_site w) ss d = fold_left (record_site w') ss' d.
Proof.
  intros Hweb Hss. revert d.
  induction Hss as [|s s' ss ss' Hs _ IH]; intros d; [done|].
  cbn [fold_left]. by rewrite IH, (record_site_same w w' d s s').
Qed.

Lemma sites_same self self' w w' :
  target_street self = target_street self' ->
  postal_code self = postal_code self' ->
  today w = today w' ->
  Forall2 (same_site w w') (sites self) (sites self').
Proof.
  intros Hstreet Hpostnr Htoday. unfold sites. rewrite Hstreet, Hpostnr.
  repeat constructor; cbn [parser]; intros html_content;
    unfold parse_boliga, parse_home, parse_nybolig, parse_edc, parse_danbolig,
      parse_boligsiden;
    rewrite !parse_page_eq; destruct (BeautifulSoup html_content); try done;
    cbn [fst]; by rewrite Htoday, (cards_listings_street _ self self').
Qed.

Lemma built_snapshot_same self self' w w' :
  target_street self = target_street self' ->
  postal_code self = postal_code self' ->
  http_get w = http_get w' ->
  today w = today w' ->
  built_snapshot (sites self) w = built_snapshot (sites self') w'.
Proof.
  intros Hstreet Hpostnr Hweb Htoday.
  by apply fold_record_site_same, sites_same.
Qed.

Lemma fold_record_site_NoDup w ss d :
  NoDup (dict_keys d) -> NoDup (dict_keys (fold_left (record_site w) ss d)).
Proof.
  revert d. induction ss as [|s ss IH]; intros d Hd; [done|].
  cbn [fold_left]. apply IH. unfold record_site.
  destruct (scraped s w); [by apply dict_set_NoDup|done].
Qed.

Lemma built_snapshot_NoDup ss w : NoDup (dict_keys (built_snapshot ss w)).
Proof. apply fold_record_site_NoDup, NoDup_nil_2. Qed.

(** A run of a monitor whose previous snapshot is the one the run builds
    finds nothing new and makes no SMTP call. *)
Lemma run_up_to_date `{JsonLib} self w :
  previous_listings self = snapshot_to_json (built_snapshot (sites self) w) ->
  disk_ok w ->
  exists w',
    run self w = (Ok [], w') /\
    smtp_trace w' = smtp_trace w /\
    outbox w' = outbox w.
Proof.
  intros Hprev Hdisk.
  assert (all_news self (sites self) w = []) as Hnone.
  { unfold all_news. apply flat_map_all_nil.
    intros s Hs. destruct (scraped s w) as [listings|] eqn:Hscraped.
    - rewrite (site_news_listings self s w listings listings Hscraped).
      + rewrite filter_all_false; [done|].
        intros l Hl. by rewrite seen_beforeb_self.
      + rewrite Hprev, py_get_snapshot_to_json.
        by rewrite built_snapshot_get, Hscraped by (done || apply sites_NoDup).
    - unfold site_news. by rewrite Hscraped. }
  destruct (run_disk_ok self w Hdisk) as [records Hrun].
  revert Hrun. unfold run_mail, run_calls. rewrite Hnone, after_mail_nil.
  intros Hrun. eexists. split; [exact Hrun|]. done.
Qed.

(** X11. With the text codec: after a run that returned, a monitor created
    for the same street and postal code, on the same web and day, loads the
    snapshot of that run, finds nothing new and makes no SMTP call. *)
Theorem rerun_finds_nothing_new street postnr recipient self w result w1 :
  @run _ _ JsonText.lib self w = (Ok result, w1) ->
  target_street self = lower street ->
  postal_code self = postnr ->
  read_fault w = None ->
  exists self2 w2,
    @init _ JsonText.lib street postnr recipient w1 = (Ok self2, w1) /\
    @run _ _ JsonText.lib self2 w1 = (Ok [], w2) /\
    smtp_trace w2 = smtp_trace w1 /\
    outbox w2 = outbox w1.
Proof.
  intros Hrun Hstreet Hpostnr Hread.
  destruct (run_returns_inv _ _ _ _ Hrun) as [Hdisk _].
  pose proof (run_persists _ _ _ _ Hrun) as Hfile.
  destruct (@run_disk_ok _ _ JsonText.lib self w Hdisk) as [records Hrun'].
  rewrite Hrun in Hrun'. injection Hrun' as Hresult Hw1.
  assert (http_get w1 = http_get w /\ today w1 = today w /\
          read_fault w1 = read_fault w /\ open_fault w1 = open_fault w /\
          write_fault w1 = write_fault w) as (Hweb & Htoday & Hread1 & Ho & Hw).
  { by rewrite Hw1. }
  set (self2 := {| target_street := lower street; postal_code := postnr;
                   email_to := recipient;
                   previous_listings :=
                     snapshot_to_json (built_snapshot (sites self) w) |}).
  assert (@init _ JsonText.lib street postnr recipient w1 = (Ok self2, w1)) as Hinit.
  { unfold init.
    rewrite (bind_ok _ _ _ _ _
               (@load_previous_listings_file JsonText.lib w1 _ _ Hfile
                  ltac:(by rewrite Hread1)
                  (JsonTextFacts.loads_dumps _
                     (JsonTextFacts.snapshot_to_json_storable _
                        (built_snapshot_NoDup (sites self) w))))).
    done. }
  destruct (@run_up_to_date JsonText.lib self2 w1) as (w2 & Hrun2 & Htrace & Hout).
  - cbn [previous_listings self2]. f_equal.
    apply built_snapshot_same; by rewrite ?Hstreet, ?Hpostnr.
  - destruct Hdisk. split; congruence.
  - exists self2, w2. done.
Qed.

End Rerun.

(** * Main results *)

Section Claims.
Context `{HtmlLib} `{StrLib} `{JsonLib}.

(** C1. A site of the monitor is fetched with status 200 and parsed to
    [listings], and the previous snapshot holds the listings [previous]
    for it (none when the site is absent from it).  Then the run returns,
    and a listing of [listings] is in the returned list under the name of
    the site exactly when no previous listing has both its address and its
    price; the entries returned under that name are listings of the site. *)
Theorem new_iff_no_previous_match self w s response listings previous :
  In s (sites self) ->
  http_get w (url s) = Ok response ->
  status_code response = 200 ->
  fst (parser s (text response) w) = Ok listings ->
  py_get (previous_listings self) (name s) (JArr []) =
    Ok (JArr (map listing_to_json previous)) ->
  disk_ok w ->
  exists result w',
    run self w = (Ok result, w') /\
    (forall listing,
        In listing listings ->
        (In {| site := name s; details := listing |} result <->
         ~ seen_before previous listing)) /\
    (forall item,
        In item result -> site item = name s ->
        In (details item) listings /\ ~ seen_before previous (details item)).
Proof.
  intros Hs Hget Hstatus Hparse Hprev Hdisk.
  destruct (run_disk_ok self w Hdisk) as [records Hrun].
  eexists _, _. split; [exact Hrun|].
  pose proof (scraped_Some _ _ _ _ Hget Hstatus Hparse) as Hscraped.
  pose proof (site_news_listings self s w listings previous Hscraped Hprev) as Hnews.
  assert (forall item, site item = name s ->
            In item (all_news self (sites self) w) <->
            In (details item) listings /\ ~ seen_before previous (details item))
    as Hitem.
  { intros [n l] Hn. simpl in Hn. subst n.
    rewrite (all_news_site self w s) by done.
    rewrite Hnews, in_map_iff. simpl. split.
    - intros (l' & [= ->] & Hin). apply filter_In in Hin as [Hin Hfresh].
      split; [done|]. rewrite <- seen_beforeb_spec.
      by destruct (seen_beforeb previous l).
    - intros [Hin Hfresh]. exists l. split; [done|].
      apply filter_In. split; [done|].
      rewrite <- seen_beforeb_spec in Hfresh.
      by destruct (seen_beforeb previous l). }
  split.
  - intros listing Hin. rewrite Hitem by done. simpl. tauto.
  - intros item Hin Hn. by apply Hitem.
Qed.

(** C2. When the previous snapshot is the one this run builds, the run
    returns the empty list, no SMTP call is made and the outbox is left as
    it was. *)
Theorem identical_snapshot_nothing_new self w :
  previous_listings self = snapshot_to_json (built_snapshot (sites self) w) ->
  disk_ok w ->
  exists w',
    run self w = (Ok [], w') /\
    smtp_trace w' = smtp_trace w /\
    outbox w' = outbox w.
Proof. apply run_up_to_date. Qed.

(** C3. A site of the monitor fails with the logged message [msg].  Then
    the body of the loop returns without raising; it has logged that the
    site is checked and, last, the error [msg]; the snapshot under
    construction and the list of new entries are as before; the loop goes
    on with the remaining sites.  In a run that returns, no returned entry
    carries the name of the site. *)
Theorem failing_site_is_skipped self s msg :
  In s (sites self) ->
  (forall fr rest,
      site_fails s (world fr) msg ->
      exists records,
        let fr' :=
          set_world
            (add_log ((INFO, "Checking " +:+ name s +:+ "...") :: records
                      ++ [(ERROR, msg)]) (world fr)) fr in
        check_site self s fr = (Ok tt, fr') /\
        for_each (check_site self) (s :: rest) fr =
        for_each (check_site self) rest fr') /\
  (forall w result w',
      site_fails s w msg ->
      run self w = (Ok result, w') ->
      forall item, In item result -> site item <> name s).
Proof.
  intros Hs. split.
  - intros fr rest Hfail.
    assert (clock_and_log_only (parser s)) as (f & g & Hp).
    { pose proof (sites_clock_and_log_only self) as Hall.
      rewrite List.Forall_forall in Hall. by apply Hall. }
    assert (exists records,
              check_site self s fr =
              (Ok tt,
               set_world
                 (add_log ((INFO, "Checking " +:+ name s +:+ "...") :: records
                           ++ [(ERROR, msg)]) (world fr)) fr)) as [records E].
    { unfold check_site, try_except.
      unfold bind at 1. unfold in_world at 1. rewrite logger_info_eq. frame_simpl.
      unfold bind at 1. unfold in_world at 1, requests_get. frame_simpl.
      destruct Hfail as [e Hget|response Hget Hstatus|response e Hget Hstatus Hparse];
        simpl; rewrite Hget; frame_simpl.
      - exists []. unfold in_world. rewrite logger_error_eq. frame_simpl.
        by rewrite add_log_add_log.
      - apply Z.eqb_neq in Hstatus. rewrite Hstatus.
        exists []. unfold in_world. rewrite logger_error_eq. frame_simpl.
        by rewrite add_log_add_log.
      - rewrite Hstatus. simpl.
        unfold bind at 1. unfold in_world at 1. frame_simpl.
        rewrite Hp in Hparse |- *. simpl in Hparse |- *. rewrite Hparse.
        exists (g (today (world fr)) (text response)).
        unfold in_world. rewrite logger_error_eq. frame_simpl.
        by rewrite !add_log_add_log. }
    exists records. split; [exact E|].
    cbn [for_each]. by rewrite (bind_ok _ _ _ _ _ E).
  - intros w result w' Hfail Hrun item Hin Hname.
    apply run_returns_inv in Hrun as [_ ->].
    apply (all_news_site self w s) in Hin; [|done..].
    apply site_news_In in Hin as (_ & listings & Hscraped & _).
    by rewrite (site_fails_scraped _ _ _ Hfail) in Hscraped.
Qed.

(** C5. After a run that returns, the snapshot file holds the mapping
    built in this run and nothing else: a name is mapped to a list exactly
    when a site of that name was fetched with status 200 and parsed to that
    list in this run. *)
Theorem snapshot_is_overwritten self w result w' :
  run self w = (Ok result, w') ->
  files w' !! snapshot_file =
    Some (json_dumps (snapshot_to_json (built_snapshot (sites self) w))) /\
  (forall n listings,
      dict_get n (built_snapshot (sites self) w) = Some listings <->
      exists s, In s (sites self) /\ name s = n /\ scraped s w = Some listings).
Proof.
  intros Hrun. split.
  - by apply run_persists with result.
  - intros n listings. split.
    + intros Hget. apply fold_record_site_Some in Hget as [Hget|Hget]; done.
    + intros (s & Hs & <- & Hscraped).
      by rewrite built_snapshot_get by (done || apply sites_NoDup).
Qed.

(** C7. Whatever SMTP call raises, [run] returns what it returns with a
    mail server that works, and leaves the same files; when it returns a
    non-empty list and a recipient is set, the last record of the log is
    the error of the delivery. *)
Theorem delivery_failure_is_contained self w stage e :
  fst (run self (set_smtp_fault (Some (stage, e)) w)) =
    fst (run self (set_smtp_fault None w)) /\
  files (snd (run self (set_smtp_fault (Some (stage, e)) w))) =
    files (snd (run self (set_smtp_fault None w))) /\
  (forall item news w',
      run self (set_smtp_fault (Some (stage, e)) w) = (Ok (item :: news), w') ->
      not_email_to (email_to self) = false ->
      last (log w') =
        Some (ERROR, "Failed to send email notification: " +:+ exn_str e)).
Proof.
  destruct (run_set_smtp_fault self (Some (stage, e)) w) as [Hr1 Hf1].
  destruct (run_set_smtp_fault self None w) as [Hr2 Hf2].
  split; [congruence|]. split; [congruence|].
  intros item news w' Hrun Hto.
  destruct (run_returns_inv _ _ _ _ Hrun) as [Hdisk Hnews].
  destruct (run_eq self (set_smtp_fault (Some (stage, e)) w)) as [records E].
  rewrite E, save_listings_ok, <- Hnews in Hrun by (destruct Hdisk; by split).
  cbv zeta in Hrun.
  match type of Hrun with context [send_notification self ?n ?w1] =>
    destruct (send_notification_fault self n w1 stage e Hto eq_refl)
      as (w2 & Hsend & Hlog & _)
  end.
  rewrite Hsend in Hrun. injection Hrun as <-.
  rewrite Hlog. apply last_snoc.
Qed.

(** C8, as the code has it. In a run that returns: one message, with an
    HTML part, is handed to the mail server exactly when the returned list
    is not empty, a recipient is set and no SMTP call up to [send_message]
    raises; otherwise none is; SMTP calls are made exactly when the list
    is not empty and a recipient is set; and without a recipient
    [send_notification] only logs that it skips the notification. *)
Theorem one_mail_iff_news_recipient_and_delivery self w result w' :
  run self w = (Ok result, w') ->
  ((exists msg, outbox w' = outbox w ++ [msg] /\ subtype msg = "html") <->
   (result <> [] /\ not_email_to (email_to self) = false /\ delivers w = true)) /\
  (outbox w' = outbox w \/ exists msg, outbox w' = outbox w ++ [msg]) /\
  (smtp_trace w' <> smtp_trace w <->
   (result <> [] /\ not_email_to (email_to self) = false)) /\
  (forall new w1,
      not_email_to (email_to self) = true ->
      send_notification self new w1 =
      (Ok tt,
       add_log [(INFO, "No email address configured, skipping notification")] w1)).
Proof.
  intros Hrun.
  destruct (run_returns_inv _ _ _ _ Hrun) as [Hdisk ->].
  destruct (run_disk_ok self w Hdisk) as [records Hrun'].
  rewrite Hrun in Hrun'. injection Hrun' as ->.
  assert (forall (A : Type) (l : list A) x, l ++ [x] <> l) as Hsnoc.
  { intros A l x E. apply (f_equal length) in E.
    rewrite length_app in E. simpl in E. lia. }
  assert (forall (A : Type) (l m : list A), m <> [] -> l ++ m <> l) as Hgrow.
  { intros A l m Hm E. apply (f_equal length) in E.
    rewrite length_app in E. destruct m; [done|]. simpl in E. lia. }
  assert (calls_until (option_map fst (smtp_fault w)) smtp_session <> [])
    as Hcalls.
  { destruct (smtp_fault w) as [[[] e]|]; done. }
  change (outbox (add_log records ?v)) with (outbox v).
  change (smtp_trace (add_log records ?v)) with (smtp_trace v).
  unfold after_mail.
  change (outbox (set_outbox ?f ?v)) with (f (outbox v)).
  change (smtp_trace (set_outbox ?f ?v)) with (smtp_trace v).
  change (smtp_trace (set_smtp_trace ?f ?v)) with (f (smtp_trace v)).
  change (outbox (set_smtp_trace ?f ?v)) with (outbox v).
  change (outbox (set_files ?f w)) with (outbox w).
  change (smtp_trace (set_files ?f w)) with (smtp_trace w).
  unfold run_mail, run_calls, mail_sent, session_calls.
  destruct (all_news self (sites self) w) as [|item news];
    [|destruct (not_email_to (email_to self)) eqn:Hto;
      [|destruct (delivers w) eqn:Hdelivers]];
    rewrite ?app_nil_r.
  - split_and!.
    + split; [|by intros [[] _]]. intros (msg & Hmsg & _). by destruct (Hsnoc _ (outbox w) msg).
    + by left.
    + split; [done|]. by intros [[] _].
    + intros new w1 Hto. unfold send_notification. by rewrite Hto.
  - split_and!.
    + split; [|by intros (_ & ? & _)].
      intros (msg & Hmsg & _). by destruct (Hsnoc _ (outbox w) msg).
    + by left.
    + split; [done|]. by intros [_ ?].
    + intros new w1 _. unfold send_notification. by rewrite Hto.
  - split_and!.
    + split; [done|]. intros _. eexists. split; [reflexivity|done].
    + right. eauto.
    + split; [done|]. intros _. by apply Hgrow.
    + done.
  - split_and!.
    + split; [|by intros (_ & _ & ?)].
      intros (msg & Hmsg & _). by destruct (Hsnoc _ (outbox w) msg).
    + by left.
    + split; [done|]. intros _. by apply Hgrow.
    + done.
Qed.

(** C10. A listing returned by one of the six parse methods comes from a
    card of the page whose address element, stripped, is its address; the
    address contains the street of the monitor when both are lowered; the
    listing has the five fields; price, size and link are the placeholders
    when the card has no such element. *)
Theorem parsed_listing_shape parse mk self html_content w listings w' listing :
  In (parse, mk) parse_methods ->
  parse self html_content w = (Ok listings, w') ->
  In listing listings ->
  contains (lower (target_street self)) (lower (address listing)) = true /\
  dict_keys (listing_items listing) = listing_fields /\
  exists soup card address_elem,
    BeautifulSoup html_content = Ok soup /\
    In card (select soup (card_selector mk)) /\
    select_one card (address_selector mk) = Some address_elem /\
    address listing = strip (tag_text address_elem) /\
    (select_one card (price_selector mk) = None ->
     price listing = "Price not available") /\
    (select_one card (size_selector mk) = None ->
     size listing = "Size not available") /\
    (select_one card (link_selector mk) = None -> link listing = "#").
Proof.
  intros Hparse Hrun Hin. rewrite (parse_methods_parse_page _ _ Hparse) in Hrun.
  rewrite parse_page_eq in Hrun.
  destruct (BeautifulSoup html_content) as [soup|e] eqn:Hsoup; [|done].
  injection Hrun as <- _.
  apply cards_listings_In in Hin as (card & Hcard & Hlisting).
  apply card_listing_Some in Hlisting
    as (address_elem & Haddr & Htext & Hstreet & Hprice & Hsize & Hlink & _).
  split; [done|]. split; [done|].
  exists soup, card, address_elem. split_and!; try done.
  - intros Hnone. by rewrite Hnone in Hprice.
  - intros Hnone. by rewrite Hnone in Hsize.
  - intros Hnone. by rewrite Hnone in Hlink.
Qed.

(** C9, as the code has it. A site of the monitor is fetched with status
    200 and its page parsed.  In a run that returns, the list persisted for
    the site holds, for every pair of address and price, as many listings
    as the page has cards that give a listing with that pair: nothing is
    merged, so the pair occurs once only if the page shows it once. *)
Theorem persisted_listings_follow_cards self w result w' s mk response soup k :
  run self w = (Ok result, w') ->
  In s (sites self) ->
  parser s = parse_page mk self ->
  http_get w (url s) = Ok response ->
  status_code response = 200 ->
  BeautifulSoup (text response) = Ok soup ->
  exists listings,
    files w' !! snapshot_file =
      Some (json_dumps (snapshot_to_json (built_snapshot (sites self) w))) /\
    dict_get (name s) (built_snapshot (sites self) w) = Some listings /\
    count_key k listings =
      count_cards mk self (today w) k (select soup (card_selector mk)).
Proof.
  intros Hrun Hs Hparser Hget Hstatus Hsoup.
  exists (cards_listings mk self (today w) (select soup (card_selector mk))).
  split_and!.
  - by apply run_persists with result.
  - rewrite built_snapshot_get by (done || apply sites_NoDup).
    apply (scraped_Some _ _ _ _ Hget Hstatus).
    by rewrite Hparser, parse_page_eq, Hsoup.
  - apply count_key_cards_listings.
Qed.

End Claims.

(** C4. With the text codec for [json]: once [save_listings] has written
    a snapshot whose site names are distinct, on a disk that can be read,
    [load_previous_listings] returns the snapshot. *)
Theorem save_then_load_roundtrip snapshot w w' :
  NoDup (dict_keys snapshot) ->
  @save_listings JsonText.lib snapshot w = (Ok tt, w') ->
  read_fault w' = None ->
  @load_previous_listings JsonText.lib w' = (Ok (snapshot_to_json snapshot), w').
Proof.
  intros Hkeys Hsave Hread.
  apply (@load_after_save JsonText.lib snapshot w w' Hsave Hread).
  apply JsonTextFacts.loads_dumps, JsonTextFacts.snapshot_to_json_storable, Hkeys.
Qed.

(** * The results on the concrete web *)

Module Checks.
Import Example.

(** C6, at a working directory that cannot be written: every site has been
    processed and a new listing found, but [run] raises the exception of
    [open] instead of returning; the snapshot is as before and no mail
    leaves. *)
Theorem run_raises_when_snapshot_cannot_be_written :
  fst (@run html str codec monitor w_read_only) =
    Raise (Exn "PermissionError"
             "[Errno 13] Permission denied: 'previous_listings.json'") /\
  files (snd (@run html str codec monitor w_read_only)) = files w_read_only /\
  outbox (snd (@run html str codec monitor w_read_only)) = [] /\
  fst (@run html str codec monitor w0) =
    Ok [ {| site := "Boliga";
            details := {| address := "Havneholmen 30"; price := "5.000.000 kr";
                          size := "Size not available"; link := "#";
                          found_date := "2025-01-15" |} |} ].
Proof. split_and!; vm_compute; reflexivity. Qed.

(** C9 fails as stated: the Boliga page shows one address and price on two
    cards, and the snapshot the run persists has both listings. *)
Lemma duplicates_are_persisted :
  exists content listings,
    files (snd (@run html str codec monitor w0)) !! snapshot_file = Some content /\
    JsonText.loads content = Ok (snapshot_to_json [("Boliga", listings)]) /\
    ~ NoDup (map listing_key listings).
Proof.
  exists (JsonText.dumps (snapshot_to_json [("Boliga", boliga_listings)])),
         boliga_listings.
  split_and!; [by vm_compute..|].
  intros Hnd. apply (bool_decide_pack _) in Hnd. by vm_compute in Hnd.
Qed.

Lemma new_iff_no_previous_match_witness :
  exists result w',
    @run html str codec monitor w0 = (Ok result, w') /\
    (forall listing,
        In listing boliga_listings ->
        (In {| site := "Boliga"; details := listing |} result <->
         ~ seen_before [old_listing] listing)) /\
    (forall item,
        In item result -> site item = "Boliga" ->
        In (details item) boliga_listings /\
        ~ seen_before [old_listing] (details item)).
Proof.
  apply (@new_iff_no_previous_match html str codec monitor w0 boliga_site
           boliga_response boliga_listings [old_listing]).
  - left. reflexivity.
  - reflexivity.
  - reflexivity.
  - vm_compute. reflexivity.
  - reflexivity.
  - split; reflexivity.
Defined.

Lemma identical_snapshot_nothing_new_witness :
  exists w', @run html str codec monitor_up_to_date w0 = (Ok [], w') /\
             smtp_trace w' = smtp_trace w0 /\
             outbox w' = outbox w0.
Proof.
  apply (@identical_snapshot_nothing_new html str codec monitor_up_to_date w0).
  - vm_compute. reflexivity.
  - split; reflexivity.
Defined.

Lemma failing_site_is_skipped_witness :
  exists records,
    let fr' :=
      set_world
        (add_log ((INFO, "Checking Home...") :: records
                  ++ [(ERROR, "Failed to access Home, status code: 404")]) w0)
        fr0 in
    check_site monitor home_site fr0 = (Ok tt, fr') /\
    for_each (check_site monitor) [home_site] fr0 =
    for_each (check_site monitor) [] fr'.
Proof.
  apply (proj1 (@failing_site_is_skipped html str codec monitor home_site
                  "Failed to access Home, status code: 404"
                  (or_intror (or_introl eq_refl)))
           fr0 []).
  apply (bad_status home_site w0 home_response); [reflexivity|discriminate].
Defined.

Lemma save_then_load_roundtrip_witness :
  @load_previous_listings codec
    (snd (@save_listings codec [("Boliga", boliga_listings)] w0)) =
  (Ok (snapshot_to_json [("Boliga", boliga_listings)]),
   snd (@save_listings codec [("Boliga", boliga_listings)] w0)).
Proof.
  apply (save_then_load_roundtrip [("Boliga", boliga_listings)] w0).
  - apply (bool_decide_unpack _). vm_compute. reflexivity.
  - reflexivity.
  - reflexivity.
Defined.

Lemma snapshot_is_overwritten_witness :
  files (snd (@run html str codec monitor w0)) !! snapshot_file =
    Some (JsonText.dumps
            (snapshot_to_json (built_snapshot (@sites html str monitor) w0))) /\
  (forall n listings,
      dict_get n (built_snapshot (@sites html str monitor) w0) = Some listings <->
      exists s, In s (@sites html str monitor) /\ name s = n /\
                scraped s w0 = Some listings).
Proof.
  apply (@snapshot_is_overwritten html str codec monitor w0 new_on_boliga
           (snd (@run html str codec monitor w0))).
  vm_compute. reflexivity.
Defined.

Lemma delivery_failure_is_contained_witness :
  fst (@run html str codec monitor w_login_refused) =
    fst (@run html str codec monitor w0) /\
  files (snd (@run html str codec monitor w_login_refused)) =
    files (snd (@run html str codec monitor w0)) /\
  last (log (snd (@run html str codec monitor w_login_refused))) =
    Some (ERROR, "Failed to send email notification: "
                 +:+ "(535, b'5.7.8 Username and Password not accepted')").
Proof.
  destruct (@delivery_failure_is_contained html str codec monitor w0 SmtpLogin
              (Exn "SMTPAuthenticationError"
                 "(535, b'5.7.8 Username and Password not accepted')"))
    as (Hresult & Hfiles & Hlog).
  split; [exact Hresult|]. split; [exact Hfiles|].
  apply (Hlog (hd {| site := EmptyString; details := old_listing |} new_on_boliga)
           (tl new_on_boliga)).
  - vm_compute. reflexivity.
  - reflexivity.
Defined.

(** C8 fails as stated: a new listing is found and a recipient is set,
    but the mail server refuses the login; the SMTP calls are made and no
    message is sent. *)
Lemma login_refused_no_mail :
  fst (@run html str codec monitor w_login_refused) = Ok new_on_boliga /\
  smtp_trace (snd (@run html str codec monitor w_login_refused)) =
    [SmtpConnect; SmtpStartTls; SmtpLogin] /\
  outbox (snd (@run html str codec monitor w_login_refused)) = [] /\
  ~ ((exists msg,
         outbox (snd (@run html str codec monitor w_login_refused)) =
           outbox w_login_refused ++ [msg] /\
         subtype msg = "html") <->
     (new_on_boliga <> [] /\ not_email_to (email_to monitor) = false)).
Proof.
  assert (outbox (snd (@run html str codec monitor w_login_refused)) = [])
    as Hout by (vm_compute; reflexivity).
  split_and!; [vm_compute; reflexivity..|].
  intros [_ Hsent]. destruct Hsent as (msg & Hmsg & _).
  - split; [discriminate|reflexivity].
  - rewrite Hout in Hmsg. discriminate Hmsg.
Qed.

Lemma one_mail_iff_news_recipient_and_delivery_witness :
  ((exists msg,
       outbox (snd (@run html str codec monitor w0)) = outbox w0 ++ [msg] /\
       subtype msg = "html") <->
   (new_on_boliga <> [] /\ not_email_to (email_to monitor) = false /\
    delivers w0 = true)) /\
  (outbox (snd (@run html str codec monitor w0)) = outbox w0 \/
   exists msg, outbox (snd (@run html str codec monitor w0)) = outbox w0 ++ [msg]) /\
  (smtp_trace (snd (@run html str codec monitor w0)) <> smtp_trace w0 <->
   (new_on_boliga <> [] /\ not_email_to (email_to monitor) = false)) /\
  (forall new w1,
      not_email_to (email_to monitor) = true ->
      send_notification monitor new w1 =
      (Ok tt,
       add_log [(INFO, "No email address configured, skipping notification")] w1)).
Proof.
  apply (@one_mail_iff_news_recipient_and_delivery html str codec monitor w0
           new_on_boliga (snd (@run html str codec monitor w0))).
  vm_compute. reflexivity.
Defined.

Lemma persisted_listings_follow_cards_witness :
  exists listings,
    files (snd (@run html str codec monitor w0)) !! snapshot_file =
      Some (JsonText.dumps
              (snapshot_to_json (built_snapshot (@sites html str monitor) w0))) /\
    dict_get "Boliga" (built_snapshot (@sites html str monitor) w0) = Some listings /\
    count_key ("Havneholmen 12, 2. tv", "4.500.000 kr") listings =
      @count_cards html str boliga_markup monitor "2025-01-15"
        ("Havneholmen 12, 2. tv", "4.500.000 kr")
        (TreeHtml.tree_select boliga_document ".propertyitem").
Proof.
  apply (@persisted_listings_follow_cards html str codec monitor w0 new_on_boliga
           (snd (@run html str codec monitor w0)) boliga_site boliga_markup
           boliga_response boliga_document
           ("Havneholmen 12, 2. tv", "4.500.000 kr")).
  - vm_compute. reflexivity.
  - left. reflexivity.
  - reflexivity.
  - reflexivity.
  - reflexivity.
  - reflexivity.
Defined.

Lemma parsed_listing_shape_witness :
  contains "havneholmen" (AsciiStr.ascii_lower "Havneholmen 30") = true /\
  dict_keys (listing_items (details (hd {| site := EmptyString; details := old_listing |}
                                        new_on_boliga))) = listing_fields /\
  exists soup card address_elem,
    @BeautifulSoup html boliga_html = Ok soup /\
    In card (@select html soup ".propertyitem") /\
    @select_one html card ".address" = Some address_elem /\
    "Havneholmen 30" = AsciiStr.ascii_strip (@tag_text html address_elem) /\
    (@select_one html card ".price" = None ->
     "5.000.000 kr" = "Price not available") /\
    (@select_one html card ".size" = None ->
     "Size not available" = "Size not available") /\
    (@select_one html card "a.property-link" = None -> "#" = "#").
Proof.
  apply (@parsed_listing_shape html str (@parse_boliga html str) boliga_markup
           monitor boliga_html w0 boliga_listings
           (snd (@parse_boliga html str monitor boliga_html w0))
           (details (hd {| site := EmptyString; details := old_listing |}
                        new_on_boliga))).
  - left. reflexivity.
  - vm_compute. reflexivity.
  - right. right. left. reflexivity.
Defined.

End Checks.

(** * Further properties of the script *)

(** ** Loading the previous snapshot, and the program as a whole *)

Section Loading.
Context `{HtmlLib} `{StrLib} `{JsonLib}.

(** [load_previous_listings] returns, and only appends to the log. *)
Lemma load_previous_listings_total w :
  exists v records, load_previous_listings w = (Ok v, add_log records w).
Proof.
  unfold load_previous_listings, bind at 1, path_exists, gets.
  destruct (files w !! snapshot_file) as [content|] eqn:Hfile.
  - rewrite bool_decide_eq_true_2 by eauto.
    unfold try_except, bind, read_file, lift. rewrite Hfile.
    destruct (read_fault w) as [e|].
    + rewrite logger_error_eq. eauto.
    + destruct (json_loads content) as [v|e].
      * exists v, []. by rewrite add_log_nil.
      * rewrite logger_error_eq. eauto.
  - rewrite bool_decide_eq_false_2 by (by intros [? ?]).
    exists (JObj []), []. by rewrite add_log_nil.
Qed.

(** X1. [load_previous_listings] by cases: without a snapshot file it
    returns the empty dictionary and logs nothing; when the file cannot be
    read, or its text cannot be decoded, it returns the empty dictionary
    and logs the error; otherwise it returns the decoded value and logs
    nothing. *)
Theorem load_previous_listings_cases w :
  (files w !! snapshot_file = None ->
   load_previous_listings w = (Ok (JObj []), w)) /\
  (forall content e,
      files w !! snapshot_file = Some content ->
      read_fault w = Some e ->
      load_previous_listings w =
      (Ok (JObj []),
       add_log [(ERROR, "Error loading previous listings: " +:+ exn_str e)] w)) /\
  (forall content e,
      files w !! snapshot_file = Some content ->
      read_fault w = None ->
      json_loads content = Raise e ->
      load_previous_listings w =
      (Ok (JObj []),
       add_log [(ERROR, "Error loading previous listings: " +:+ exn_str e)] w)) /\
  (forall content v,
      files w !! snapshot_file = Some content ->
      read_fault w = None ->
      json_loads content = Ok v ->
      load_previous_listings w = (Ok v, w)).
Proof.
  split_and!.
  - intros Hfile. unfold load_previous_listings, bind at 1, path_exists, gets.
    rewrite Hfile. by rewrite bool_decide_eq_false_2 by (by intros [? ?]).
  - intros content e Hfile Hread.
    unfold load_previous_listings, bind at 1, path_exists, gets.
    rewrite Hfile, bool_decide_eq_true_2 by eauto.
    unfold try_except, bind, read_file. by rewrite Hread, logger_error_eq.
  - intros content e Hfile Hread Hcodec.
    unfold load_previous_listings, bind at 1, path_exists, gets.
    rewrite Hfile, bool_decide_eq_true_2 by eauto.
    unfold try_except, bind, read_file, lift.
    by rewrite Hread, Hfile, Hcodec, logger_error_eq.
  - intros content v Hfile Hread Hcodec.
    by apply load_previous_listings_file with content.
Qed.

(** [PropertyMonitor(...)] returns, and only appends to the log. *)
Lemma init_total street postnr recipient w :
  exists self records,
    init street postnr recipient w = (Ok self, add_log records w) /\
    target_street self = lower street /\
    postal_code self = postnr /\
    email_to self = recipient.
Proof.
  destruct (load_previous_listings_total w) as (v & records & Hload).
  unfold init. rewrite (bind_ok _ _ _ _ _ Hload). unfold ret. eauto 10.
Qed.

(** X10. The block under [if __name__ == "__main__"] (constructor, run and
    report) ends without an exception exactly when the snapshot can be
    written: whatever the web servers, the mail server and the snapshot
    file of the previous run do, nothing else is fatal. *)
Theorem main_returns_iff_disk_ok w :
  (exists lines w', main w = (Ok lines, w')) <-> disk_ok w.
Proof.
  destruct (init_total TARGET_STREET POSTAL_CODE (Some EMAIL_ADDRESS) w)
    as (self & records & Hinit & _).
  unfold main. rewrite (bind_ok _ _ _ _ _ Hinit). split.
  - intros (lines & w' & Hmain). unfold bind in Hmain.
    destruct (run self (add_log records w)) as [[result|e] w1] eqn:Hrun; [|done].
    by destruct (run_returns_inv _ _ _ _ Hrun) as [Hdisk _].
  - intros Hdisk.
    destruct (run_disk_ok self (add_log records w)) as [records' Hrun]; [done|].
    rewrite (bind_ok _ _ _ _ _ Hrun). unfold ret. eauto.
Qed.

End Loading.

(** ** What a run returns *)

Section RunResults.
Context `{HtmlLib} `{StrLib} `{JsonLib}.

Lemma site_news_unseen self old s w :
  previous_listings self = snapshot_to_json old ->
  site_news self s w = unseen old s w.
Proof.
  intros Hprev. unfold site_news, unseen.
  destruct (scraped s w) as [listings|]; [|done].
  rewrite Hprev, py_get_snapshot_to_json.
  destruct (dict_get (name s) old) as [previous|]; cbn [default].
  - by rewrite novelties_listings.
  - by rewrite (novelties_listings (name s) []).
Qed.

Lemma all_news_unseen self old ss w :
  previous_listings self = snapshot_to_json old ->
  all_news self ss w = flat_map (fun s => unseen old s w) ss.
Proof.
  intros Hprev. unfold all_news. apply flat_map_ext.
  intros s. by apply site_news_unseen.
Qed.

Lemma unseen_nothing_old s w : unseen [] s w = tagged s w.
Proof.
  unfold unseen, tagged. destruct (scraped s w) as [listings|]; [|done].
  f_equal. induction listings as [|l listings IH]; [done|].
  cbn [List.filter dict_get default seen_beforeb existsb negb]. by rewrite IH at 1.
Qed.

Lemma novelties_sublist site_name previous listings :
  sublist (fst (novelties site_name previous listings))
          (map (tag site_name) listings).
Proof.
  induction listings as [|l listings IH]; cbn [novelties map].
  - apply sublist_nil_l.
  - destruct (is_new l previous) as [fresh|e]; [|apply sublist_nil_l].
    destruct (novelties site_name previous listings) as [items err].
    cbn [fst] in *. destruct fresh; cbn [app].
    + by apply sublist_skip.
    + by apply sublist_cons.
Qed.

Lemma site_news_sublist self s w : sublist (site_news self s w) (tagged s w).
Proof.
  unfold site_news, tagged. destruct (scraped s w) as [listings|]; [|done].
  destruct (py_get _ _ _) as [previous|e]; [|apply sublist_nil_l].
  apply novelties_sublist.
Qed.

Lemma all_news_sublist self ss w :
  sublist (all_news self ss w) (flat_map (fun s => tagged s w) ss).
Proof.
  unfold all_news. induction ss as [|s ss IH]; cbn [flat_map]; [done|].
  apply sublist_app; [apply site_news_sublist|exact IH].
Qed.

(** X3. When the previous listings of the monitor are those of a snapshot
    and the new snapshot can be written, [run] returns, site after site in
    the order of [self.sites] and listing after listing in the order of
    the page, exactly the scraped listings that no listing of the same
    site in the snapshot matches in address and price; a listing that
    occurs twice on a page is returned twice. *)
Theorem run_returns_the_unseen_in_order self old w :
  previous_listings self = snapshot_to_json old ->
  disk_ok w ->
  exists w',
    run self w = (Ok (flat_map (fun s => unseen old s w) (sites self)), w').
Proof.
  intros Hprev Hdisk. destruct (run_disk_ok self w Hdisk) as [records Hrun].
  rewrite Hrun, (all_news_unseen self old) by done. eauto.
Qed.

(** X2. The first run: when there is no snapshot file, the constructor
    logs nothing and leaves the world as it is, and a run of the monitor it
    returns reports every listing scraped, site after site and in the
    order of the pages. *)
Theorem first_run_reports_everything street postnr recipient w :
  files w !! snapshot_file = None ->
  disk_ok w ->
  exists self w',
    init street postnr recipient w = (Ok self, w) /\
    run self w = (Ok (flat_map (fun s => tagged s w) (sites self)), w').
Proof.
  intros Hfile Hdisk.
  assert (load_previous_listings w = (Ok (JObj []), w)) as Hload.
  { unfold load_previous_listings, bind at 1, path_exists, gets.
    rewrite Hfile. by rewrite bool_decide_eq_false_2 by (by intros [? ?]). }
  set (self := {| target_street := lower street; postal_code := postnr;
                  email_to := recipient; previous_listings := JObj [] |}).
  destruct (run_disk_ok self w Hdisk) as [records Hrun].
  exists self. eexists. split.
  - unfold init. by rewrite (bind_ok _ _ _ _ _ Hload).
  - rewrite Hrun. f_equal. f_equal.
    rewrite (all_news_unseen self []) by done.
    apply flat_map_ext. intros s. apply unseen_nothing_old.
Qed.

(** X4. Whatever the previous listings are, even a value that is no
    snapshot at all, what [run] returns is drawn from the listings scraped
    in this run, in their order: nothing is invented, repeated or
    reordered. *)
Theorem run_result_is_a_sublist_of_the_scraped self w result w' :
  run self w = (Ok result, w') ->
  sublist result (flat_map (fun s => tagged s w) (sites self)).
Proof.
  intros Hrun. destruct (run_returns_inv _ _ _ _ Hrun) as [_ ->].
  apply all_news_sublist.
Qed.

(** X5. An outage: when no site is scraped and the snapshot can be
    written, [run] returns the empty list, makes no SMTP call, and replaces
    the snapshot file by the empty dictionary, so what earlier runs had
    stored is lost. *)
Theorem outage_erases_the_snapshot self w :
  (forall s, In s (sites self) -> scraped s w = None) ->
  disk_ok w ->
  exists w',
    run self w = (Ok [], w') /\
    files w' !! snapshot_file = Some (json_dumps (JObj [])) /\
    smtp_trace w' = smtp_trace w /\
    outbox w' = outbox w.
Proof.
  intros Hnone Hdisk.
  assert (all_news self (sites self) w = []) as Hnews.
  { unfold all_news. apply flat_map_all_nil. intros s Hs.
    unfold site_news. by rewrite (Hnone s Hs). }
  assert (forall ss d, (forall s, In s ss -> scraped s w = None) ->
            fold_left (record_site w) ss d = d) as Hfold.
  { induction ss as [|s ss IH]; intros d Hss; cbn [fold_left]; [done|].
    unfold record_site at 2. rewrite (Hss s) by (by left).
    apply IH. intros s' Hs'. apply Hss. by right. }
  destruct (run_disk_ok self w Hdisk) as [records Hrun].
  eexists. split; [rewrite Hrun; by rewrite Hnews|].
  unfold run_calls, run_mail, built_snapshot. rewrite Hnews, Hfold by done.
  unfold add_log, set_log, after_mail, set_outbox, set_smtp_trace, set_files.
  cbn [files smtp_trace outbox].
  split_and!; [apply lookup_insert_eq|by rewrite app_nil_r..].
Qed.

(** X6. When the previous listings are no dictionary (the snapshot file
    held a list, a string, a number), every site's comparison raises and
    is caught: [run] returns the empty list and sends nothing, yet it
    still replaces the snapshot file by the listings scraped. *)
Theorem previous_not_a_dict_reports_nothing self w :
  (forall members, previous_listings self <> JObj members) ->
  disk_ok w ->
  exists w',
    run self w = (Ok [], w') /\
    files w' !! snapshot_file =
      Some (json_dumps (snapshot_to_json (built_snapshot (sites self) w))) /\
    outbox w' = outbox w.
Proof.
  intros Hshape Hdisk.
  assert (all_news self (sites self) w = []) as Hnews.
  { unfold all_news. apply flat_map_all_nil. intros s Hs.
    unfold site_news. destruct (scraped s w); [|done].
    destruct (previous_listings self) as [| | | | |members] eqn:E; try done.
    by destruct (Hshape members). }
  destruct (run_disk_ok self w Hdisk) as [records Hrun].
  eexists. split; [rewrite Hrun; by rewrite Hnews|].
  split; [by apply run_persists with (all_news self (sites self) w)|].
  unfold run_mail. rewrite Hnews.
  unfold add_log, set_log, after_mail, set_outbox. cbn [outbox].
  by rewrite app_nil_r.
Qed.

Lemma fold_record_site_keys w ss d :
  NoDup (map name ss) ->
  (forall s, In s ss -> ~ In (name s) (dict_keys d)) ->
  dict_keys (fold_left (record_site w) ss d) = dict_keys d ++ scraped_names ss w.
Proof.
  unfold scraped_names.
  revert d. induction ss as [|s ss IH]; intros d Hnd Hfresh; cbn [fold_left].
  - by rewrite app_nil_r.
  - cbn [map] in Hnd. inversion Hnd as [|? ? Hs Hss]; subst.
    rewrite list_elem_of_In in Hs.
    cbn [List.filter]. unfold record_site at 2.
    destruct (scraped s w) as [listings|] eqn:Hscraped.
    + rewrite bool_decide_eq_true_2 by eauto. cbn [map].
      rewrite IH; [|done|].
      * rewrite dict_keys_set_ne by (apply Hfresh; by left).
        by rewrite <- app_assoc.
      * intros s' Hs'. rewrite dict_keys_set_ne by (apply Hfresh; by left).
        rewrite in_app_iff. intros [Hin|[Heq|[]]].
        -- revert Hin. apply Hfresh. by right.
        -- apply Hs. rewrite Heq. by apply in_map.
    + rewrite bool_decide_eq_false_2 by (by intros [? ?]).
      apply IH; [done|]. intros s' Hs'. apply Hfresh. by right.
Qed.

(** X7. The snapshot a run writes has one key for every site that is
    scraped and no other, in the order of [self.sites]: a site that fails
    is absent from the file, whatever an earlier snapshot held for it. *)
Theorem snapshot_keys_are_the_scraped_sites self w result w' :
  run self w = (Ok result, w') ->
  exists snapshot,
    files w' !! snapshot_file = Some (json_dumps (snapshot_to_json snapshot)) /\
    dict_keys snapshot = scraped_names (sites self) w.
Proof.
  intros Hrun. exists (built_snapshot (sites self) w). split.
  - by apply run_persists with result.
  - unfold built_snapshot.
    rewrite fold_record_site_keys; [done|apply sites_NoDup|].
    intros s _ [].
Qed.

End RunResults.

(** ** The cards of a page, one by one *)

Section CardAccounting.
Context `{HtmlLib} `{StrLib}.

(** What one card gives: nothing when it does not match the street, the
    [KeyError] of the missing [href] when its link is broken, a listing
    otherwise. *)
Lemma card_listing_outcome mk self date card :
  match card_listing mk self date card with
  | Ok (Some _) =>
      card_matches mk self card = true /\ card_link_broken mk card = false
  | Ok None => card_matches mk self card = false
  | Raise e =>
      card_matches mk self card = true /\ card_link_broken mk card = true /\
      exn_str e = "'href'"
  end.
Proof.
  unfold card_listing, card_matches, card_link_broken, tag_getitem.
  destruct (select_one card (address_selector mk)) as [address_elem|]; [|done].
  destruct (contains _ _); [|done].
  destruct (select_one card (link_selector mk)) as [link_elem|]; [|done].
  by destruct (tag_attr link_elem "href").
Qed.

Lemma cards_listings_length mk self date cards :
  length (cards_listings mk self date cards) =
  length (List.filter
            (fun c => card_matches mk self c && negb (card_link_broken mk c))
            cards).
Proof.
  induction cards as [|card cards IH]; [done|].
  cbn [cards_listings List.filter].
  pose proof (card_listing_outcome mk self date card) as Hcard.
  destruct (card_listing mk self date card) as [[listing|]|e].
  - destruct Hcard as [-> ->]. cbn. by f_equal.
  - by rewrite Hcard.
  - destruct Hcard as (-> & -> & _). done.
Qed.

Lemma cards_errors_eq mk self date cards :
  cards_errors mk self date cards =
  map (fun _ => (ERROR, "Error parsing " +:+ label mk +:+ " property: 'href'"))
    (List.filter (fun c => card_matches mk self c && card_link_broken mk c) cards).
Proof.
  induction cards as [|card cards IH]; [done|].
  cbn [cards_errors List.filter].
  pose proof (card_listing_outcome mk self date card) as Hcard.
  destruct (card_listing mk self date card) as [[listing|]|e].
  - destruct Hcard as [-> ->]. done.
  - by rewrite Hcard.
  - destruct Hcard as (-> & -> & ->). cbn [andb map]. by f_equal.
Qed.

(** X8. Every card of a page is accounted for.  When BeautifulSoup returns
    the document, each of the six parse methods returns: it gives one
    listing for every card that matches the street and whose link, if
    there is one, has an [href]; it logs one error naming the missing
    [href] for every matching card whose link has none; cards that do not
    match are passed over in silence; and only the log changes. *)
Theorem parse_accounts_for_every_card parse mk self html w soup :
  In (parse, mk) parse_methods ->
  BeautifulSoup html = Ok soup ->
  exists listings,
    parse self html w =
    (Ok listings,
     add_log
       (map (fun _ => (ERROR, "Error parsing " +:+ label mk +:+ " property: 'href'"))
          (List.filter (fun c => card_matches mk self c && card_link_broken mk c)
             (select soup (card_selector mk))))
       w) /\
    length listings =
    length (List.filter
              (fun c => card_matches mk self c && negb (card_link_broken mk c))
              (select soup (card_selector mk))).
Proof.
  intros Hparse Hsoup. apply parse_methods_parse_page in Hparse as ->.
  rewrite parse_page_eq, Hsoup. eexists. split.
  - by rewrite cards_errors_eq.
  - apply cards_listings_length.
Qed.

End CardAccounting.

(** ** The comparison stops at the first match *)

(** X12. The loop over the previous listings of a site stops at the first
    entry with the address and the price of the listing: what follows it in
    the stored list is never looked at, so entries after it that are no
    listings at all do not make the comparison fail. *)
Theorem first_match_ends_the_comparison listing good rest p :
  In p good ->
  same_key listing p ->
  is_new listing (JArr (map listing_to_json good ++ rest)) = Ok false.
Proof.
  intros Hin Hkey. unfold is_new. cbn [py_iter result_bind].
  induction good as [|a good IH]; [done|].
  cbn [map app scan_previous].
  change (py_getitem (listing_to_json a) "address") with (Ok (JStr (address a))).
  change (py_getitem (listing_to_json a) "price") with (Ok (JStr (price a))).
  cbn [result_bind py_eq_str].
  assert (same_keyb listing a = false -> In p good) as Htail.
  { intros Hne. destruct Hin as [->|Hin]; [|done].
    apply same_keyb_spec in Hkey. congruence. }
  unfold same_keyb in Htail.
  destruct (String.eqb (address listing) (address a)); [|by apply IH, Htail].
  destruct (String.eqb (price listing) (price a)); [done|by apply IH, Htail].
Qed.

(** ** The text of the mail *)

Lemma prefix_append (x rest : string) : String.prefix x (x +:+ rest) = true.
Proof.
  induction x as [|c x IH]; [by destruct rest|].
  rewrite JsonTextFacts.append_cons. cbn [String.prefix].
  by destruct (ascii_dec c c).
Qed.

Lemma contains_infix_of x s : infix_of x s -> contains x s = true.
Proof.
  intros (before & after & ->).
  induction before as [|c before IH].
  - rewrite JsonTextFacts.append_nil.
    destruct (x +:+ after) eqn:E; cbn [contains]; rewrite <- E;
      by rewrite prefix_append.
  - rewrite JsonTextFacts.append_cons. cbn [contains].
    rewrite IH. by destruct (String.prefix _ _).
Qed.

Lemma infix_of_here (x rest : string) : infix_of x (x +:+ rest).
Proof. exists EmptyString, rest. by rewrite JsonTextFacts.append_nil. Qed.

Lemma infix_of_skip (x a s : string) : infix_of x s -> infix_of x (a +:+ s).
Proof.
  intros (before & after & ->). exists (a +:+ before), after.
  by rewrite JsonTextFacts.append_assoc.
Qed.

Lemma infix_of_keep (x s a : string) : infix_of x s -> infix_of x (s +:+ a).
Proof.
  intros (before & after & ->). exists before, (after +:+ a).
  by rewrite !JsonTextFacts.append_assoc.
Qed.

Lemma infix_of_trans (x y z : string) : infix_of x y -> infix_of y z -> infix_of x z.
Proof.
  intros Hxy (before & after & ->). by apply infix_of_skip, infix_of_keep.
Qed.

Lemma infix_of_items (item : NewListing) new (head : string) :
  In item new ->
  infix_of (email_item item)
    (fold_left (fun body item => body +:+ email_item item) new head).
Proof.
  revert head. induction new as [|i new IH]; intros head; [done|].
  cbn [fold_left]. intros [->|Hin]; [|by apply IH].
  assert (forall l (s : string),
            infix_of (email_item item) s ->
            infix_of (email_item item)
              (fold_left (fun body item => body +:+ email_item item) l s)) as Hkeep.
  { induction l as [|j l IHl]; intros s Hs; [done|].
    cbn [fold_left]. by apply IHl, infix_of_keep. }
  apply Hkeep, infix_of_skip.
  exists EmptyString, EmptyString.
  by rewrite JsonTextFacts.append_nil, JsonTextFacts.append_empty.
Qed.

Ltac find_field :=
  unfold email_item; cbv zeta;
  repeat first [ apply infix_of_here | apply infix_of_skip ].

(** X9. The mail shows every new listing: for each entry of the list
    handed to [send_notification], its address, price, size, link, date
    and site stand in the body of the message as they are, unescaped. *)
Theorem mail_body_shows_every_listing self recipient new item :
  In item new ->
  Forall (fun field => contains field (payload (compose_message self recipient new)) = true)
    [ address (details item); price (details item); size (details item);
      link (details item); found_date (details item); site item ].
Proof.
  intros Hin. cbn [payload compose_message]. unfold email_body.
  assert (forall field, infix_of field (email_item item) ->
            contains field
              (fold_left (fun body item => body +:+ email_item item) new
                 (email_head self) +:+ email_tail) = true) as Hfield.
  { intros field Hfield. apply contains_infix_of, infix_of_keep.
    apply infix_of_trans with (email_item item); [done|].
    by apply infix_of_items. }
  repeat constructor; apply Hfield; find_field.
Qed.

(** ** A mail session that fails *)

Section FailedSession.
Context `{HtmlLib} `{StrLib}.

(** X13. A mail session that fails is not closed: when an SMTP call
    before [quit] raises, [send_notification] still returns, the calls it
    made end with the one that raised, [quit] is not among them, and no
    message reaches the server. *)
Theorem failed_session_is_not_closed self new w stage e :
  not_email_to (email_to self) = false ->
  smtp_fault w = Some (stage, e) ->
  stage <> SmtpQuit ->
  exists w' calls,
    send_notification self new w = (Ok tt, w') /\
    smtp_trace w' = smtp_trace w ++ calls /\
    last calls = Some stage /\
    ~ In SmtpQuit calls /\
    outbox w' = outbox w.
Proof.
  intros Hto Hfault Hstage.
  destruct (send_notification_eq self new w) as [records Hsend].
  eexists. exists (session_calls self w). split; [exact Hsend|].
  unfold add_log, set_log, after_mail, set_outbox, set_smtp_trace.
  cbn [smtp_trace outbox].
  unfold session_calls, mail_sent, delivers. rewrite Hto, Hfault.
  destruct stage; try done; cbn;
    (split_and!; [done|done| |by rewrite app_nil_r]);
    intros Hin; repeat (destruct Hin as [Hin|Hin]; [discriminate Hin|]); done.
Qed.

End FailedSession.

(** ** A run that raises *)

Section RunRaises.
Context `{HtmlLib} `{StrLib} `{JsonLib}.

Lemma save_listings_write_fault listings w n e :
  open_fault w = None ->
  write_fault w = Some (n, e) ->
  save_listings listings w =
  (Raise e,
   set_files
     <[snapshot_file :=
         String.substring 0 n (json_dumps (snapshot_to_json listings))]>
     (set_files <[snapshot_file := EmptyString]> w)).
Proof.
  intros Hopen Hwrite. unfold save_listings, bind, open_write, write_file.
  rewrite Hopen. cbn [write_fault set_files]. by rewrite Hwrite.
Qed.

(** X14. The only exception [run] lets out is the one of writing the
    snapshot, and it comes before any mail: when [run] raises, opening or
    writing the snapshot file raised that exception, no SMTP call was made
    and no message was sent, whatever new listings the run had found. *)
Theorem run_that_raises_sends_nothing self w e w' :
  run self w = (Raise e, w') ->
  (open_fault w = Some e \/ exists n, write_fault w = Some (n, e)) /\
  smtp_trace w' = smtp_trace w /\
  outbox w' = outbox w.
Proof.
  intros Hrun. destruct (open_fault w) as [e1|] eqn:Hopen.
  - destruct (run_open_fault self w e1 Hopen) as [records Hrun'].
    rewrite Hrun in Hrun'. inversion Hrun'; subst. auto.
  - destruct (write_fault w) as [[n e2]|] eqn:Hwrite.
    + destruct (run_eq self w) as [records E]. rewrite E in Hrun.
      rewrite (save_listings_write_fault _ _ n e2) in Hrun by done.
      inversion Hrun; subst. eauto.
    + destruct (run_disk_ok self w) as [records Hrun']; [done|].
      rewrite Hrun in Hrun'. discriminate Hrun'.
Qed.

End RunRaises.

(** * The further properties on the concrete web *)

Module FurtherChecks.
Import Example.

Lemma load_previous_listings_cases_witness :
  @load_previous_listings codec w0 =
  (Ok (snapshot_to_json [("Boliga", [old_listing])]), w0).
Proof.
  apply (proj2 (proj2 (proj2 (@load_previous_listings_cases codec w0)))
           (JsonText.dumps (snapshot_to_json [("Boliga", [old_listing])]))).
  - vm_compute. reflexivity.
  - reflexivity.
  - vm_compute. reflexivity.
Defined.

Lemma first_run_reports_everything_witness :
  exists self w',
    @init str codec "Havneholmen" "1561" (Some "me@example.com") w_first =
      (Ok self, w_first) /\
    @run html str codec self w_first =
      (Ok (flat_map (fun s => tagged s w_first) (@sites html str self)), w').
Proof.
  apply (@first_run_reports_everything html str codec
           "Havneholmen" "1561" (Some "me@example.com") w_first).
  - reflexivity.
  - split; reflexivity.
Defined.

Lemma run_returns_the_unseen_in_order_witness :
  exists w',
    @run html str codec monitor w0 =
    (Ok (flat_map (fun s => unseen [("Boliga", [old_listing])] s w0)
           (@sites html str monitor)), w').
Proof.
  apply (@run_returns_the_unseen_in_order html str codec monitor
           [("Boliga", [old_listing])] w0).
  - reflexivity.
  - split; reflexivity.
Defined.

Lemma run_result_is_a_sublist_of_the_scraped_witness :
  sublist new_on_boliga (flat_map (fun s => tagged s w0) (@sites html str monitor)).
Proof.
  apply (@run_result_is_a_sublist_of_the_scraped html str codec monitor w0
           new_on_boliga (snd (@run html str codec monitor w0))).
  vm_compute. reflexivity.
Defined.

Lemma outage_erases_the_snapshot_witness :
  exists w',
    @run html str codec monitor w_outage = (Ok [], w') /\
    files w' !! snapshot_file = Some (JsonText.dumps (JObj [])) /\
    smtp_trace w' = smtp_trace w_outage /\
    outbox w' = outbox w_outage.
Proof.
  apply (@outage_erases_the_snapshot html str codec monitor w_outage).
  - intros s _. reflexivity.
  - split; reflexivity.
Defined.

Lemma previous_not_a_dict_reports_nothing_witness :
  exists w',
    @run html str codec monitor_list_previous w0 = (Ok [], w') /\
    files w' !! snapshot_file =
      Some (JsonText.dumps
              (snapshot_to_json
                 (built_snapshot (@sites html str monitor_list_previous) w0))) /\
    outbox w' = outbox w0.
Proof.
  apply (@previous_not_a_dict_reports_nothing html str codec
           monitor_list_previous w0).
  - intros members. discriminate.
  - split; reflexivity.
Defined.

Lemma snapshot_keys_are_the_scraped_sites_witness :
  exists snapshot,
    files (snd (@run html str codec monitor w0)) !! snapshot_file =
      Some (JsonText.dumps (snapshot_to_json snapshot)) /\
    dict_keys snapshot = scraped_names (@sites html str monitor) w0.
Proof.
  apply (@snapshot_keys_are_the_scraped_sites html str codec monitor w0
           new_on_boliga (snd (@run html str codec monitor w0))).
  vm_compute. reflexivity.
Defined.

Lemma parse_accounts_for_every_card_witness :
  exists listings,
    @parse_boliga html str monitor boliga_html w0 =
    (Ok listings,
     add_log [(ERROR, "Error parsing Boliga property: 'href'")] w0) /\
    length listings = 3%nat.
Proof.
  apply (@parse_accounts_for_every_card html str (@parse_boliga html str)
           boliga_markup monitor boliga_html w0 boliga_document).
  - left. reflexivity.
  - reflexivity.
Defined.

Lemma mail_body_shows_every_listing_witness :
  Forall
    (fun field =>
       contains field
         (payload (compose_message monitor "me@example.com" new_on_boliga)) = true)
    [ "Havneholmen 30"; "5.000.000 kr"; "Size not available"; "#";
      "2025-01-15"; "Boliga" ].
Proof.
  apply (mail_body_shows_every_listing monitor "me@example.com" new_on_boliga
           {| site := "Boliga";
              details := {| address := "Havneholmen 30"; price := "5.000.000 kr";
                            size := "Size not available"; link := "#";
                            found_date := "2025-01-15" |} |}).
  left. reflexivity.
Defined.

Lemma first_match_ends_the_comparison_witness :
  is_new
    {| address := "Havneholmen 12, 2. tv"; price := "4.500.000 kr";
       size := "Size not available"; link := "#"; found_date := "2025-01-15" |}
    (JArr (map listing_to_json [old_listing] ++ [JNum 7; JStr "x"])) = Ok false.
Proof.
  apply (first_match_ends_the_comparison _ [old_listing] [JNum 7; JStr "x"]
           old_listing).
  - left. reflexivity.
  - split; reflexivity.
Defined.

Lemma failed_session_is_not_closed_witness :
  exists w' calls,
    send_notification monitor new_on_boliga w_login_refused = (Ok tt, w') /\
    smtp_trace w' = smtp_trace w_login_refused ++ calls /\
    last calls = Some SmtpLogin /\
    ~ In SmtpQuit calls /\
    outbox w' = outbox w_login_refused.
Proof.
  apply (failed_session_is_not_closed monitor new_on_boliga w_login_refused
           SmtpLogin
           (Exn "SMTPAuthenticationError"
              "(535, b'5.7.8 Username and Password not accepted')")).
  - reflexivity.
  - reflexivity.
  - discriminate.
Defined.

Lemma rerun_finds_nothing_new_witness :
  exists self2 w2,
    @init str codec "Havneholmen" "1561" (Some "me@example.com")
      (snd (@run html str codec monitor w0)) =
      (Ok self2, snd (@run html str codec monitor w0)) /\
    @run html str codec self2 (snd (@run html str codec monitor w0)) = (Ok [], w2) /\
    smtp_trace w2 = smtp_trace (snd (@run html str codec monitor w0)) /\
    outbox w2 = outbox (snd (@run html str codec monitor w0)).
Proof.
  apply (@rerun_finds_nothing_new html str "Havneholmen" "1561"
           (Some "me@example.com") monitor w0 new_on_boliga
           (snd (@run html str codec monitor w0))).
  - vm_compute. reflexivity.
  - reflexivity.
  - reflexivity.
  - reflexivity.
Defined.

Lemma run_that_raises_sends_nothing_witness :
  (open_fault w_read_only =
     Some (Exn "PermissionError"
             "[Errno 13] Permission denied: 'previous_listings.json'") \/
   exists n,
     write_fault w_read_only =
       Some (n, Exn "PermissionError"
                  "[Errno 13] Permission denied: 'previous_listings.json'")) /\
  smtp_trace (snd (@run html str codec monitor w_read_only)) =
    smtp_trace w_read_only /\
  outbox (snd (@run html str codec monitor w_read_only)) = outbox w_read_only.
Proof.
  apply (@run_that_raises_sends_nothing html str codec monitor w_read_only).
  vm_compute. reflexivity.
Defined.

End FurtherChecks.
